(** * docs_loader.py: a shallow embedding of the document query assistant

    The program is a command-line loop around four libraries (a text
    splitter, document loaders, an HTTP client and a vector store).  The
    embedding keeps the program's own code concrete and takes what the
    libraries and the operating system answer as fields of one record of
    oracles, so every statement below holds whatever those answer. *)

From Stdlib Require Import NArith String Ascii DecimalString DecimalNat.
From stdpp Require Import base option list.

Local Open Scope N_scope.
Local Open Scope nat_scope.
Local Open Scope list_scope.

(** ** Python strings *)

Module PyStr.

(** A [str] is a sequence of Unicode code points. *)
Definition char := N.
Definition str := list char.

(** An ASCII literal of the source, one code point per character. *)
Definition lit (s : string) : str :=
  map N_of_ascii (list_ascii_of_string s).
#[global] Arguments lit : simpl never.

(** [str.isspace] on one code point: the table of CPython's
    [_PyUnicode_IsWhitespace]. *)
Definition isspace (c : char) : bool :=
  ((9 <=? c) && (c <=? 13))%N || ((28 <=? c) && (c <=? 32))%N
  || (c =? 133)%N || (c =? 160)%N || (c =? 5760)%N
  || ((8192 <=? c) && (c <=? 8202))%N
  || (c =? 8232)%N || (c =? 8233)%N || (c =? 8239)%N
  || (c =? 8287)%N || (c =? 12288)%N.

Fixpoint lstrip (s : str) : str :=
  match s with
  | c :: s' => if isspace c then lstrip s' else s
  | [] => []
  end.

Definition rstrip (s : str) : str := rev (lstrip (rev s)).

(** [s.strip()] *)
Definition strip (s : str) : str := rstrip (lstrip s).

Definition eqb (s t : str) : bool := bool_decide (s = t).

(** [s.endswith(suf)] *)
Definition endswith (s suf : str) : bool :=
  (length suf <=? length s) && eqb (drop (length s - length suf) s) suf.

(** [s.startswith(pre)] *)
Definition startswith (s pre : str) : bool :=
  eqb (take (length pre) s) pre.

(** [str(n)] for a non-negative [int]: its decimal digits. *)
Definition of_nat (n : nat) : str :=
  lit (NilEmpty.string_of_uint (Nat.to_uint n)).

(** A decimal digit, '0' to '9'. *)
Definition isdigit (c : char) : bool := ((48 <=? c) && (c <=? 57))%N.

(** [posixpath.join(a, b)] *)
Definition path_join (a b : str) : str :=
  if startswith b (lit "/") then b
  else if eqb a [] || endswith a (lit "/") then a ++ b
  else a ++ lit "/" ++ b.

(** [path] ends in characters that [lower] turns into [ext]: the extension
    [ext], compared without regard to case. *)
Definition has_extension_ci (lower : char -> char) (path ext : str) : Prop :=
  exists stem suffix, path = stem ++ suffix /\ map lower suffix = ext.

(** [posixpath.isabs(p)] *)
Definition isabs (p : str) : bool := startswith p (lit "/").

End PyStr.

Import PyStr.

(** ** Python values, exceptions and results *)

Module Py.

(** The exception classes the program names or can meet.  The last two
    derive from [BaseException] only, the others from [Exception]. *)
Inductive exn_class :=
| ValueError | FileNotFoundError | EOFError | TypeError | KeyError
| IndexError | HTTPError | JSONDecodeError
| OtherException (name : str)
| KeyboardInterrupt | SystemExit.

(** [isinstance(e, Exception)] *)
Definition is_Exception (c : exn_class) : bool :=
  match c with
  | KeyboardInterrupt | SystemExit => false
  | _ => true
  end.

(** An exception object: its class and [str(e)]. *)
Record exn := Exn { exn_cls : exn_class; exn_str : str }.

Inductive result (A : Type) :=
| Ok (a : A)
| Raise (e : exn).
Arguments Ok {A} a.
Arguments Raise {A} e.

Definition is_Ok {A} (r : result A) : bool :=
  match r with Ok _ => true | Raise _ => false end.

(** The objects that cross the program's interfaces: what
    [response.json()] yields, document metadata, embeddings, query
    results.  A float is kept as mantissa and binary exponent; the program
    never computes with one. *)
Inductive pyval :=
| PNone
| PBool (b : bool)
| PInt (z : Z)
| PFloat (mantissa exponent : Z)
| PStr (s : str)
| PList (l : list pyval)
| PDict (d : list (str * pyval)).

Definition type_name (v : pyval) : str :=
  match v with
  | PNone => lit "NoneType" | PBool _ => lit "bool" | PInt _ => lit "int"
  | PFloat _ _ => lit "float" | PStr _ => lit "str"
  | PList _ => lit "list" | PDict _ => lit "dict"
  end.

(** [d.get(k)] on a dict kept as an association list. *)
Fixpoint dict_get {V} (k : str) (d : list (str * V)) : option V :=
  match d with
  | [] => None
  | (k', v) :: d' => if eqb k' k then Some v else dict_get k d'
  end.

(** [d[k] = v]: the value is replaced where the key is, a new key goes
    last (a dict keeps insertion order). *)
Fixpoint dict_set {V} (k : str) (v : V) (d : list (str * V)) : list (str * V) :=
  match d with
  | [] => [(k, v)]
  | (k', v') :: d' =>
      if eqb k' k then (k', v) :: d' else (k', v') :: dict_set k v d'
  end.

Definition type_error (msg : str) : exn := Exn TypeError msg.

(** [v[k]] with a string key. *)
Definition subscript_str (v : pyval) (k : str) : result pyval :=
  match v with
  | PDict d =>
      match dict_get k d with
      | Some x => Ok x
      | None => Raise (Exn KeyError (lit "'" ++ k ++ lit "'"))
      end
  | PList _ =>
      Raise (type_error (lit "list indices must be integers or slices, not str"))
  | PStr _ =>
      Raise (type_error (lit "string indices must be integers, not 'str'"))
  | _ =>
      Raise (type_error (lit "'" ++ type_name v ++ lit "' object is not subscriptable"))
  end.

(** [v[0]] *)
Definition subscript_0 (v : pyval) : result pyval :=
  match v with
  | PList (x :: _) => Ok x
  | PList [] => Raise (Exn IndexError (lit "list index out of range"))
  | PStr (c :: _) => Ok (PStr [c])
  | PStr [] => Raise (Exn IndexError (lit "string index out of range"))
  | PDict _ => Raise (Exn KeyError (lit "0"))
  | _ =>
      Raise (type_error (lit "'" ++ type_name v ++ lit "' object is not subscriptable"))
  end.

(** [iter(v)] run to the end: the items a [for] loop over [v] sees. *)
Definition iterate (v : pyval) : result (list pyval) :=
  match v with
  | PList l => Ok l
  | PDict d => Ok (map (fun kv => PStr (fst kv)) d)
  | PStr s => Ok (map (fun c => PStr [c]) s)
  | _ =>
      Raise (type_error (lit "'" ++ type_name v ++ lit "' object is not iterable"))
  end.

(** A list comprehension [[f(x) for x in l]] whose body can raise: the
    first exception ends it. *)
Fixpoint comprehension {A B} (f : A -> result B) (l : list A) : result (list B) :=
  match l with
  | [] => Ok []
  | x :: l' =>
      match f x with
      | Raise e => Raise e
      | Ok y =>
          match comprehension f l' with
          | Raise e => Raise e
          | Ok ys => Ok (y :: ys)
          end
      end
  end.

End Py.

Import Py.

(** ** The program's surroundings *)

(** What [DocumentLoaderFactory.get_loader] returns: one of the two
    library loaders, with the arguments it was constructed with. *)
Inductive Loader :=
| PyPDFLoader (file_path : str)
| TextLoader (file_path : str) (encoding : str).

(** A library [Document]. *)
Record Document := { page_content : str; metadata : pyval }.

(** The arguments of one [requests.post] of the embedding client. *)
Record request := {
  req_url : str;
  req_headers : list (str * str);
  req_model : str;
  req_task : str;
  req_input : list str
}.

(** What the program reads of a [requests.Response]: the status code, the
    text of the error [raise_for_status] raises for it, and what [json()]
    returns or raises. *)
Record response := {
  status_code : nat;
  http_error_text : str;
  json_body : result pyval
}.

(** One line typed at a prompt, or Ctrl-C pressed there. *)
Inductive stdin_event :=
| Line (s : str)
| CtrlC.

(** What the program does to the outside, in the order it does it. *)
Inductive event :=
| EvPrint (s : str)
| EvPrompt (s : str)
| EvListdir (dir : str)
| EvLoad (l : Loader)
| EvPost (r : request)
| EvCreateCollection (name : str)
| EvAdd (texts : list str) (metadatas : list pyval) (ids : list str)
        (embeddings : list pyval)
| EvQuery (query_embeddings : list pyval) (n_results : nat).

(** The state every call threads: the input not yet read, the events so
    far, and the state [X] of the file system, the network and the vector
    store. *)
Record World (X : Type) := MkWorld {
  stdin : list stdin_event;
  trace : list event;
  ext : X
}.
Arguments MkWorld {X}.
Arguments stdin {X}.
Arguments trace {X}.
Arguments ext {X}.

(** The answers of the interpreter, the operating system and the libraries
    that the program's own code does not determine. *)
Record Runtime (X : Type) := {
  (** [str.lower] *)
  str_lower : str -> str;
  (** [format(v)] of a value inside an f-string *)
  py_format : pyval -> str;
  (** [os.path.dirname(__file__)] *)
  current_dir : str;
  os_getenv : X -> str -> option str;
  os_listdir : X -> str -> result (list str);
  os_isfile : X -> str -> bool;
  (** [loader.load()] *)
  loader_load : X -> Loader -> result (list Document);
  (** [CharacterTextSplitter(chunk_size, chunk_overlap).split_documents] *)
  split_documents : nat -> nat -> list Document -> result (list Document);
  requests_post : X -> request -> result response * X;
  (** [chromadb.Client().get_or_create_collection(name)] *)
  chroma_get_or_create_collection : X -> str -> result unit * X;
  (** [collection.add(documents, metadatas, ids, embeddings)] *)
  collection_add :
    X -> list str -> list pyval -> list str -> list pyval -> result unit * X;
  (** [collection.query(query_embeddings, n_results)] *)
  collection_query : X -> list pyval -> nat -> result pyval * X
}.
Arguments str_lower {X}.
Arguments py_format {X}.
Arguments current_dir {X}.
Arguments os_getenv {X}.
Arguments os_listdir {X}.
Arguments os_isfile {X}.
Arguments loader_load {X}.
Arguments split_documents {X}.
Arguments requests_post {X}.
Arguments chroma_get_or_create_collection {X}.
Arguments collection_add {X}.
Arguments collection_query {X}.

(** ** Computations: state passing with exceptions *)

Module Comp.

(** A computation returns or raises, and leaves a world either way: what
    was printed before an exception stays printed. *)
Definition M (X A : Type) : Type := World X -> result A * World X.

Definition ret {X A} (a : A) : M X A := fun w => (Ok a, w).

Definition raise {X A} (e : exn) : M X A := fun w => (Raise e, w).

Definition bind {X A B} (m : M X A) (k : A -> M X B) : M X B :=
  fun w =>
    match m w with
    | (Ok a, w') => k a w'
    | (Raise e, w') => (Raise e, w')
    end.

(** A pure step that can raise. *)
Definition lift {X A} (r : result A) : M X A := fun w => (r, w).

(** [try: body / except Exception as e: handler(e)] *)
Definition try_except_Exception {X A} (body : M X A) (handler : exn -> M X A)
  : M X A :=
  fun w =>
    match body w with
    | (Raise e, w') =>
        if is_Exception (exn_cls e) then handler e w' else (Raise e, w')
    | ok => ok
    end.

Definition log {X} (ev : event) (w : World X) : World X :=
  MkWorld (stdin w) (trace w ++ [ev]) (ext w).

(** [print(s)], on a console that takes every text; [Full.print] below is
    [print] on a console that may refuse one. *)
Definition print {X} (s : str) : M X unit := fun w => (Ok tt, log (EvPrint s) w).

(** [input(prompt)]: the next line; [EOFError] when the input has ended,
    [KeyboardInterrupt] on Ctrl-C. *)
Definition input {X} (prompt : str) : M X str :=
  fun w =>
    let w := log (EvPrompt prompt) w in
    match stdin w with
    | [] => (Raise (Exn EOFError (lit "EOF when reading a line")), w)
    | Line s :: rest => (Ok s, MkWorld rest (trace w) (ext w))
    | CtrlC :: rest =>
        (Raise (Exn KeyboardInterrupt []), MkWorld rest (trace w) (ext w))
    end.

(** A call that reads the outside state. *)
Definition observe {X A} (ev : event) (f : X -> result A) : M X A :=
  fun w => (f (ext w), log ev w).

(** A call that can change the outside state. *)
Definition call {X A} (ev : event) (f : X -> result A * X) : M X A :=
  fun w =>
    let '(r, x) := f (ext w) in
    (r, MkWorld (stdin w) (trace w ++ [ev]) x).

End Comp.

Import Comp.

Notation "'let!' x ':=' m 'in' k" := (bind m (fun x => k))
  (at level 10, x name, m at level 100, k at level 200).
Notation "'do!' m 'in' k" := (bind m (fun _ => k))
  (at level 10, m at level 100, k at level 200).

(** ** The texts the program prints *)

Module Msg.

Definition unsupported : str :=
  0x274c%N :: lit " Unsupported file type. Only .txt and .pdf are supported.".
Definition file_not_found : str := 0x274c%N :: lit " File not found.".
Definition no_api_key : str :=
  0x274c%N :: lit " JINA_API_KEY not found in .env file.".
Definition available : str := 10%N :: 0x1f4c4%N :: lit " Available Documents:".
Definition enter_id : str :=
  10%N :: 0x1f4dd%N :: lit " Enter the file ID you want to embed: ".
Definition ask : str := 10%N :: 0x2753%N :: lit " Ask something from your docs: ".
Definition top_results : str := 10%N :: 0x1f50d%N :: lit " Top Results:".
Definition new_session : str :=
  10%N :: 0x1f501%N :: lit " New Session (type 'q' at any time to quit)".
Definition goodbye : str := 0x1f44b%N :: lit " Exiting the app. Goodbye!".
Definition stored : str :=
  0x2705%N :: lit " Successfully embedded and stored in ChromaDB!".
Definition done_with_document : str := 0x1f4c1%N :: lit " Done with this document.".
Definition error_prefix : str := 0x26a0%N :: 0xfe0f%N :: lit " Error: ".

End Msg.

(** ** The program *)

(** [for x in l: f(x)] *)
Fixpoint for_each {X A} (f : A -> M X unit) (l : list A) : M X unit :=
  match l with
  | [] => ret tt
  | x :: l' => do! f x in for_each f l'
  end.

(** [enumerate(l)] *)
Definition enumerate {A} (l : list A) : list (nat * A) :=
  combine (seq 0 (length l)) l.

(** *** Embedding strategy *)

(** The abstract base class [EmbeddingInterface]. *)
Class EmbeddingInterface (X E : Type) := {
  embed_documents : E -> list str -> M X (list pyval);
  embed_query : E -> str -> M X pyval
}.

Record JinaAIEmbeddings := {
  api_key : str;
  model_name : str;
  api_url : str;
  headers : list (str * str)
}.

Definition JinaAIEmbeddings_init (key : str) : JinaAIEmbeddings :=
  {| api_key := key;
     model_name := lit "jina-embeddings-v3";
     api_url := lit "https://api.jina.ai/v1/embeddings";
     headers := [(lit "Authorization", lit "Bearer " ++ key);
                 (lit "Content-Type", lit "application/json")] |}.

(** [response.raise_for_status()] *)
Definition raise_for_status (r : response) : result unit :=
  if (400 <=? status_code r) && (status_code r <? 600)
  then Raise (Exn HTTPError (http_error_text r))
  else Ok tt.

(** [[item["embedding"] for item in data["data"]]] *)
Definition embeddings_of (data : pyval) : result (list pyval) :=
  match subscript_str data (lit "data") with
  | Raise e => Raise e
  | Ok items =>
      match iterate items with
      | Raise e => Raise e
      | Ok l => comprehension (fun item => subscript_str item (lit "embedding")) l
      end
  end.

(** [data["data"][0]["embedding"]] *)
Definition first_embedding_of (data : pyval) : result pyval :=
  match subscript_str data (lit "data") with
  | Raise e => Raise e
  | Ok items =>
      match subscript_0 items with
      | Raise e => Raise e
      | Ok item => subscript_str item (lit "embedding")
      end
  end.

Section Program.

Context {X : Type} (rt : Runtime X).

Definition documents_request (self : JinaAIEmbeddings) (texts : list str) : request :=
  {| req_url := api_url self; req_headers := headers self;
     req_model := model_name self; req_task := lit "retrieval.passage";
     req_input := texts |}.

Definition query_request (self : JinaAIEmbeddings) (text : str) : request :=
  {| req_url := api_url self; req_headers := headers self;
     req_model := model_name self; req_task := lit "retrieval.query";
     req_input := [text] |}.

Definition post (req : request) : M X response :=
  call (EvPost req) (fun x => requests_post rt x req).

Definition Jina_embed_documents (self : JinaAIEmbeddings) (texts : list str)
  : M X (list pyval) :=
  let! response := post (documents_request self texts) in
  do! lift (raise_for_status response) in
  let! data := lift (json_body response) in
  lift (embeddings_of data).

Definition Jina_embed_query (self : JinaAIEmbeddings) (text : str) : M X pyval :=
  let! response := post (query_request self text) in
  do! lift (raise_for_status response) in
  let! data := lift (json_body response) in
  lift (first_embedding_of data).

#[export] Instance JinaAIEmbeddings_interface : EmbeddingInterface X JinaAIEmbeddings :=
  {| embed_documents := Jina_embed_documents;
     embed_query := Jina_embed_query |}.

(** *** Document loader factory

    The choice of the loader class and of its arguments.  The constructors
    themselves are library code; here they are taken to return, and
    [Full.get_loader] below has them as calls that may raise. *)

Definition get_loader (file_path : str) : result Loader :=
  if endswith (str_lower rt file_path) (lit ".pdf") then
    Ok (PyPDFLoader file_path)
  else if endswith (str_lower rt file_path) (lit ".txt") then
    Ok (TextLoader file_path (lit "utf8"))
  else Raise (Exn ValueError Msg.unsupported).

(** *** Document processor *)

Record DocumentProcessor := { chunk_size : nat; chunk_overlap : nat }.

Definition DocumentProcessor_init : DocumentProcessor :=
  {| chunk_size := 512; chunk_overlap := 50 |}.

Definition doc_id (i : nat) : str := lit "doc_" ++ of_nat i.

Definition process (self : DocumentProcessor) (loader : Loader)
  : M X (list str * list pyval * list str) :=
  let! documents := observe (EvLoad loader) (fun x => loader_load rt x loader) in
  let! docs :=
    lift (split_documents rt (chunk_size self) (chunk_overlap self) documents) in
  let texts := map page_content docs in
  let metadatas := map metadata docs in
  let ids := map doc_id (seq 0 (length texts)) in
  ret (texts, metadatas, ids).

(** *** ChromaDB store *)

Definition ChromaDBStore_init : M X unit :=
  call (EvCreateCollection (lit "documents"))
       (fun x => chroma_get_or_create_collection rt x (lit "documents")).

Definition add_documents (texts : list str) (metadatas : list pyval)
    (ids : list str) (embeddings : list pyval) : M X unit :=
  call (EvAdd texts metadatas ids embeddings)
       (fun x => collection_add rt x texts metadatas ids embeddings).

Definition query_documents_n (query_embedding : pyval) (n_results : nat) : M X pyval :=
  call (EvQuery [query_embedding] n_results)
       (fun x => collection_query rt x [query_embedding] n_results).

(** [query_documents] with its default [n_results=3]. *)
Definition query_documents (query_embedding : pyval) : M X pyval :=
  query_documents_n query_embedding 3.

End Program.


Section Controller.

Context {X : Type} (rt : Runtime X).

(** *** User interaction *)

(** One step of the dict comprehension of [choose_file]: entry [f] at
    position [i] of the directory listing is stored under [str(i + 1)] when
    it is a regular file. *)
Definition files_step (x : X) (d : list (str * str)) (p : nat * str)
  : list (str * str) :=
  let '(i, f) := p in
  if os_isfile rt x (path_join (current_dir rt) f)
  then dict_set (of_nat (i + 1)) f d else d.

Definition files_dict (x : X) (listing : list str) : list (str * str) :=
  fold_left (files_step x) (enumerate listing) [].

Definition choose_file : M X str :=
  let dir := current_dir rt in
  let! listing := observe (EvListdir dir) (fun x => os_listdir rt x dir) in
  let! files := (fun w => (Ok (files_dict (ext w) listing), w)) in
  do! print Msg.available in
  do! for_each (fun '(i, f) => print (i ++ lit ". " ++ f)) files in
  let! raw := input Msg.enter_id in
  let chosen_id := strip raw in
  match dict_get chosen_id files with
  | Some (c :: name) => ret (path_join dir (c :: name))
  | _ => raise (Exn FileNotFoundError Msg.file_not_found)
  end.

Definition get_query : M X str :=
  let! raw := input Msg.ask in ret (strip raw).

(** [f"{doc}"] *)
Definition format (v : pyval) : str :=
  match v with PStr s => s | _ => py_format rt v end.

Definition display_results (results : pyval) : M X unit :=
  do! print Msg.top_results in
  let! documents := lift (subscript_str results (lit "documents")) in
  let! first := lift (subscript_0 documents) in
  let! docs := lift (iterate first) in
  for_each
    (fun '(i, doc) =>
       print (10%N :: lit "Result " ++ of_nat (i + 1) ++ lit ":" ++ 10%N :: format doc))
    (enumerate docs).

(** *** Application controller *)

Context {E : Type} {iface : EmbeddingInterface X E}.

Record AppController := {
  embedding_service : E;
  processor : DocumentProcessor
}.

Definition AppController_init (svc : E) : M X AppController :=
  let p := DocumentProcessor_init in
  do! ChromaDBStore_init rt in
  ret {| embedding_service := svc; processor := p |}.

(** [s.lower().strip() == 'q'] *)
Definition is_q (s : str) : bool := eqb (strip (str_lower rt s)) (lit "q").

(** One pass through the body of the inner [while True]: [true] when it
    ends in [break]. *)
Definition query_step (self : AppController) : M X bool :=
  let! query := get_query in
  if is_q query then
    do! print Msg.done_with_document in ret true
  else
    let! query_embedding := embed_query (embedding_service self) query in
    let! results := query_documents rt query_embedding in
    do! display_results results in
    ret false.

(** The inner loop, at most [S fuel] passes. *)
Fixpoint query_loop_fuel (self : AppController) (fuel : nat) : M X unit :=
  let! stop := query_step self in
  if stop then ret tt
  else match fuel with
       | 0 => ret tt
       | S fuel' => query_loop_fuel self fuel'
       end.

(** The inner loop.  A pass that does not end the loop has read a line, so
    the number of input events left bounds the passes. *)
Definition query_loop (self : AppController) : M X unit :=
  fun w => query_loop_fuel self (length (stdin w)) w.

Inductive loop_ctl := Break | Next.

(** The body of the [try] of one pass through the outer loop. *)
Definition session_body (self : AppController) : M X loop_ctl :=
  do! print Msg.new_session in
  let! file_path := choose_file in
  if is_q file_path then
    do! print Msg.goodbye in ret Break
  else
    let! loader := lift (get_loader rt file_path) in
    let! r := process rt (processor self) loader in
    let '(texts, metadatas, ids) := r in
    let! embeddings := embed_documents (embedding_service self) texts in
    do! add_documents rt texts metadatas ids embeddings in
    do! print Msg.stored in
    do! query_loop self in
    ret Next.

(** The [except Exception as e] clause, with the [print] above; in
    [Full.report] below the handler's own print may raise. *)
Definition report (e : exn) : M X loop_ctl :=
  do! print (Msg.error_prefix ++ exn_str e) in ret Next.

(** One pass through the outer [while True]. *)
Definition session (self : AppController) : M X loop_ctl :=
  try_except_Exception (session_body self) report.

(** How a run of bounded length ends: the loop was left by [break], an
    exception left [run], or the bound was reached with the loop still
    going. *)
Inductive run_end :=
| Exited
| Uncaught (e : exn)
| StillRunning.

(** [run], at most [fuel] passes through the outer loop. *)
Fixpoint run (self : AppController) (fuel : nat) (w : World X) : run_end * World X :=
  match fuel with
  | 0 => (StillRunning, w)
  | S fuel' =>
      match session self w with
      | (Ok Break, w') => (Exited, w')
      | (Ok Next, w') => run self fuel' w'
      | (Raise e, w') => (Uncaught e, w')
      end
  end.

End Controller.

(** *** Main entry *)

Section Main.

Context {X : Type} (rt : Runtime X).

Definition getenv (name : str) : M X (option str) :=
  fun w => (Ok (os_getenv rt (ext w) name), w).

(** [main], with at most [fuel] passes through the loop of [run]. *)
Definition main (fuel : nat) (w : World X) : run_end * World X :=
  match getenv (lit "JINA_API_KEY") w with
  | (Ok (Some (c :: key)), w1) =>
      let embedding_service := JinaAIEmbeddings_init (c :: key) in
      match AppController_init rt embedding_service w1 with
      | (Ok app, w2) =>
          run rt (iface := JinaAIEmbeddings_interface rt) app fuel w2
      | (Raise e, w2) => (Uncaught e, w2)
      end
  | (Ok _, w1) => (Uncaught (Exn ValueError Msg.no_api_key), w1)
  | (Raise e, w1) => (Uncaught e, w1)
  end.

End Main.

(** ** Reading the selection table *)

Section Selection.

Context {X : Type} (rt : Runtime X).

(** [os.path.isfile(os.path.join(current_dir, f))] *)
Definition is_regular (x : X) (f : str) : bool :=
  os_isfile rt x (path_join (current_dir rt) f).

(** The positions, from 0, of the regular files in a directory listing. *)
Definition regular_positions (x : X) (listing : list str) : list nat :=
  map fst (List.filter (fun p => is_regular x (snd p)) (enumerate listing)).

(** The regular files of an enumerated listing, each under the decimal of
    its position counted from 1. *)
Definition numbered (x : X) (l : list (nat * str)) : list (str * str) :=
  map (fun p => (of_nat (fst p + 1), snd p))
      (List.filter (fun p => is_regular x (snd p)) l).

(** The selection ids [choose_file] prints, in the order it prints them. *)
Definition displayed_ids (x : X) (listing : list str) : list str :=
  map fst (files_dict rt x listing).

(** The lines [choose_file] prints under its heading. *)
Definition displayed_lines (x : X) (listing : list str) : list event :=
  map (fun p => EvPrint (fst p ++ lit ". " ++ snd p)) (files_dict rt x listing).

(** What [choose_file] returns once the line [raw] has been typed. *)
Definition selection (x : X) (listing : list str) (raw : str) : result str :=
  match dict_get (strip raw) (files_dict rt x listing) with
  | Some (c :: name) => Ok (path_join (current_dir rt) (c :: name))
  | _ => Raise (Exn FileNotFoundError Msg.file_not_found)
  end.

End Selection.

(** ** Where one pass through the outer loop can fail *)

Section Stages.

Context {X : Type} (rt : Runtime X) {E : Type} {iface : EmbeddingInterface X E}.

(** What has happened when the file prompt is on the screen: the directory
    was listed, the heading and one line per table entry were printed, and
    the prompt was written. *)
Definition file_prompt_trace (w : World X) (listing : list str) : list event :=
  trace w
  ++ EvListdir (current_dir rt) :: EvPrint Msg.available
     :: displayed_lines rt (ext w) listing
  ++ [EvPrompt Msg.enter_id].

Inductive stage :=
| Selecting       (* UserInterface.choose_file *)
| ChoosingLoader  (* DocumentLoaderFactory.get_loader *)
| Processing      (* loader.load and splitter.split_documents *)
| Embedding       (* embedding_service.embed_documents *)
| Storing         (* store.add_documents *)
| Querying.       (* the inner loop: get_query, embed_query, query_documents,
                     display_results *)

(** [raised_during self w st e w']: started in [w], the [try] body of one
    pass runs without an exception up to stage [st], where [e] is raised
    with the world at [w']. *)
Inductive raised_during (self : AppController) (w : World X)
  : stage -> exn -> World X -> Prop :=
| raised_selecting e w1 :
    choose_file rt (log (EvPrint Msg.new_session) w) = (Raise e, w1) ->
    raised_during self w Selecting e w1
| raised_choosing_loader path e w1 :
    choose_file rt (log (EvPrint Msg.new_session) w) = (Ok path, w1) ->
    is_q rt path = false ->
    get_loader rt path = Raise e ->
    raised_during self w ChoosingLoader e w1
| raised_processing path loader e w1 w2 :
    choose_file rt (log (EvPrint Msg.new_session) w) = (Ok path, w1) ->
    is_q rt path = false ->
    get_loader rt path = Ok loader ->
    process rt (processor self) loader w1 = (Raise e, w2) ->
    raised_during self w Processing e w2
| raised_embedding path loader texts metadatas ids e w1 w2 w3 :
    choose_file rt (log (EvPrint Msg.new_session) w) = (Ok path, w1) ->
    is_q rt path = false ->
    get_loader rt path = Ok loader ->
    process rt (processor self) loader w1 = (Ok (texts, metadatas, ids), w2) ->
    embed_documents (embedding_service self) texts w2 = (Raise e, w3) ->
    raised_during self w Embedding e w3
| raised_storing path loader texts metadatas ids embeddings e w1 w2 w3 w4 :
    choose_file rt (log (EvPrint Msg.new_session) w) = (Ok path, w1) ->
    is_q rt path = false ->
    get_loader rt path = Ok loader ->
    process rt (processor self) loader w1 = (Ok (texts, metadatas, ids), w2) ->
    embed_documents (embedding_service self) texts w2 = (Ok embeddings, w3) ->
    add_documents rt texts metadatas ids embeddings w3 = (Raise e, w4) ->
    raised_during self w Storing e w4
| raised_querying path loader texts metadatas ids embeddings e w1 w2 w3 w4 w5 :
    choose_file rt (log (EvPrint Msg.new_session) w) = (Ok path, w1) ->
    is_q rt path = false ->
    get_loader rt path = Ok loader ->
    process rt (processor self) loader w1 = (Ok (texts, metadatas, ids), w2) ->
    embed_documents (embedding_service self) texts w2 = (Ok embeddings, w3) ->
    add_documents rt texts metadatas ids embeddings w3 = (Ok tt, w4) ->
    query_loop rt self (log (EvPrint Msg.stored) w4) = (Raise e, w5) ->
    raised_during self w Querying e w5.

(** The events of an ingestion: a document is loaded, a request is sent,
    records are stored. *)
Definition is_ingestion (ev : event) : bool :=
  match ev with
  | EvLoad _ | EvPost _ | EvAdd _ _ _ _ => true
  | _ => false
  end.

(** An embedding service that leaves the unread input alone. *)
Definition reads_no_input : Prop :=
  forall (svc : E) (text : str) (w : World X),
    stdin (snd (embed_query svc text w)) = stdin w.

End Stages.

(** ** A concrete surrounding, to run the program on

    One directory [/srv/app], ASCII case folding, a loader that yields one
    document, a splitter that keeps documents whole, an embedding service
    that answers every request with one embedding per input, and a vector
    store that counts its records. *)

Module Demo.

Record state := {
  env_key : option str;
  entries : list (str * bool);
  stored : nat
}.

Definition lower_char (c : char) : char :=
  if ((65 <=? c) && (c <=? 90))%N then (c + 32)%N else c.

Definition dir : str := lit "/srv/app".

Definition embedding_item (t : str) : pyval :=
  PDict [(lit "embedding", PList [PInt (Z.of_nat (length t))])].

Definition answer (req : request) : response :=
  {| status_code := 200; http_error_text := [];
     json_body := Ok (PDict [(lit "data", PList (map embedding_item (req_input req)))]) |}.

Definition rt : Runtime state :=
  {| str_lower := map lower_char;
     py_format := fun _ => lit "<object>";
     current_dir := dir;
     os_getenv := fun x name =>
       if eqb name (lit "JINA_API_KEY") then env_key x else None;
     os_listdir := fun x d =>
       if eqb d dir then Ok (map fst (entries x))
       else Raise (Exn FileNotFoundError (lit "No such file or directory"));
     os_isfile := fun x p =>
       existsb (fun e => snd e && eqb (path_join dir (fst e)) p) (entries x);
     loader_load := fun x l =>
       Ok [{| page_content := lit "hello world"; metadata := PDict [] |}];
     split_documents := fun _ _ docs => Ok docs;
     requests_post := fun x req => (Ok (answer req), x);
     chroma_get_or_create_collection := fun x _ => (Ok tt, x);
     collection_add := fun x texts _ _ _ =>
       (Ok tt, {| env_key := env_key x; entries := entries x;
                  stored := stored x + length texts |});
     collection_query := fun x _ _ =>
       (Ok (PDict [(lit "documents", PList [PList []])]), x) |}.

(** A directory holding a subdirectory and two regular files. *)
Definition x0 : state :=
  {| env_key := Some (lit "secret");
     entries := [(lit "venv", false); (lit "notes.txt", true); (lit "paper.PDF", true)];
     stored := 0 |}.

Definition listing0 : list str := map fst (entries x0).

(** A directory holding two regular files only. *)
Definition x1 : state :=
  {| env_key := Some (lit "secret");
     entries := [(lit "report.docx", true); (lit "a.txt", true)];
     stored := 0 |}.

Definition listing1 : list str := map fst (entries x1).

(** No credential in the environment. *)
Definition x_no_key : state :=
  {| env_key := None; entries := entries x0; stored := 0 |}.

Definition world (input : list stdin_event) : World state :=
  MkWorld input [] x0.

Definition world1 (input : list stdin_event) : World state :=
  MkWorld input [] x1.

Definition iface : EmbeddingInterface state JinaAIEmbeddings :=
  JinaAIEmbeddings_interface rt.

Definition app : AppController (E := JinaAIEmbeddings) :=
  {| embedding_service := JinaAIEmbeddings_init (lit "secret");
     processor := DocumentProcessor_init |}.

Definition pass : World state -> result loop_ctl * World state :=
  session rt (iface := iface) app.

Definition passes : nat -> World state -> run_end * World state :=
  run rt (iface := iface) app.

End Demo.

(** ** Reading what was printed *)

Section Printed.

Context {X : Type} (rt : Runtime X).

(** The line [display_results] prints for the document at position [i]. *)
Definition result_line (p : nat * pyval) : str :=
  10%N :: lit "Result " ++ of_nat (fst p + 1) ++ lit ":" ++ 10%N :: format rt (snd p).

Definition result_lines (docs : list pyval) : list event :=
  map (fun p => EvPrint (result_line p)) (enumerate docs).

(** What one pass does when the directory cannot be listed. *)
Definition unlistable_pass (e : exn) : list event :=
  [EvPrint Msg.new_session; EvListdir (current_dir rt);
   EvPrint (Msg.error_prefix ++ exn_str e)].

(** What one pass does when the input has ended. *)
Definition end_of_input_pass (x : X) (listing : list str) : list event :=
  EvPrint Msg.new_session :: EvListdir (current_dir rt)
  :: EvPrint Msg.available :: displayed_lines rt x listing
  ++ [EvPrompt Msg.enter_id;
      EvPrint (Msg.error_prefix ++ lit "EOF when reading a line")].

(** A call of [collection.add]. *)
Definition is_add (ev : event) : bool :=
  match ev with
  | EvAdd _ _ _ _ => true
  | _ => false
  end.

End Printed.

(** ** Surroundings that fail

    The concrete surrounding with its answers replaced: the directory
    listing, the loader, the splitter, the embedding API and the vector
    store can each be made to fail or to answer differently. *)

Module Variant.

Record knobs := {
  k_listdir : option exn;
  k_load : result (list Document);
  k_split : list Document -> result (list Document);
  k_post : request -> result response;
  k_create : option exn;
  k_add : option exn;
  k_query : result pyval
}.

Definition outcome (failure : option exn) : result unit :=
  match failure with
  | Some e => Raise e
  | None => Ok tt
  end.

Definition rt_of (k : knobs) : Runtime Demo.state :=
  {| str_lower := str_lower Demo.rt;
     py_format := py_format Demo.rt;
     current_dir := current_dir Demo.rt;
     os_getenv := os_getenv Demo.rt;
     os_listdir := fun x d =>
       match k_listdir k with
       | Some e => Raise e
       | None => os_listdir Demo.rt x d
       end;
     os_isfile := os_isfile Demo.rt;
     loader_load := fun _ _ => k_load k;
     split_documents := fun _ _ docs => k_split k docs;
     requests_post := fun x req => (k_post k req, x);
     chroma_get_or_create_collection := fun x _ => (outcome (k_create k), x);
     collection_add := fun x texts metadatas ids embeddings =>
       match k_add k with
       | Some e => (Raise e, x)
       | None => collection_add Demo.rt x texts metadatas ids embeddings
       end;
     collection_query := fun x _ _ => (k_query k, x) |}.

(** Two chunks with their metadata. *)
Definition two_chunks : list Document :=
  [{| page_content := lit "first part"; metadata := PDict [(lit "page", PInt 0)] |};
   {| page_content := lit "second part"; metadata := PDict [(lit "page", PInt 1)] |}].

(** A query result holding two documents. *)
Definition two_results : pyval :=
  PDict [(lit "documents", PList [PList [PStr (lit "first part"); PStr (lit "second part")]])].

(** Everything answers. *)
Definition fine : knobs :=
  {| k_listdir := None;
     k_load := Ok two_chunks;
     k_split := fun docs => Ok docs;
     k_post := fun req => Ok (Demo.answer req);
     k_create := None;
     k_add := None;
     k_query := Ok two_results |}.

(** The embedding API answers with the given status and body. *)
Definition answering (status : nat) (body : result pyval) : knobs :=
  {| k_listdir := None;
     k_load := Ok two_chunks;
     k_split := fun docs => Ok docs;
     k_post := fun _ =>
       Ok {| status_code := status; http_error_text := lit "Client Error";
             json_body := body |};
     k_create := None;
     k_add := None;
     k_query := Ok two_results |}.

(** The vector store fails: on construction, on insertion, or answers a
    query with [query]. *)
Definition store (create add : option exn) (query : result pyval) : knobs :=
  {| k_listdir := None;
     k_load := Ok two_chunks;
     k_split := fun docs => Ok docs;
     k_post := fun req => Ok (Demo.answer req);
     k_create := create;
     k_add := add;
     k_query := query |}.

(** The directory cannot be listed. *)
Definition unlistable (e : exn) : knobs :=
  {| k_listdir := Some e;
     k_load := Ok two_chunks;
     k_split := fun docs => Ok docs;
     k_post := fun req => Ok (Demo.answer req);
     k_create := None;
     k_add := None;
     k_query := Ok two_results |}.

Definition svc : JinaAIEmbeddings := JinaAIEmbeddings_init (lit "secret").

End Variant.

(** ** The program when the console and the loader constructors can fail

    The definitions above run the program where every text can be written
    to standard output and where constructing a loader only records its
    arguments.  Neither is the program's doing: [print] and the prompt of
    [input] raise when the console cannot take a text (an encoding error,
    a closed pipe), and [PyPDFLoader(path)] and [TextLoader(path, ...)] are
    library constructors that may look at the path and raise.  [Full] is
    the program with both as answers of the outside; [quiet] is the outside
    of the definitions above. *)

Record Hazards (X : Type) := {
  (** what writing a text to standard output raises, if anything *)
  stdout_error : X -> str -> option exn;
  (** the library constructor of a loader: returns, or raises *)
  loader_init : X -> Loader -> result unit * X
}.
Arguments stdout_error {X}.
Arguments loader_init {X}.

Definition quiet {X} : Hazards X :=
  {| stdout_error := fun _ _ => None;
     loader_init := fun x _ => (Ok tt, x) |}.

Module Full.

Section Program.

Context {X : Type} (hz : Hazards X) (rt : Runtime X).

(** [print(s)] *)
Definition print (s : str) : M X unit :=
  fun w =>
    match stdout_error hz (ext w) s with
    | Some e => (Raise e, w)
    | None => (Ok tt, log (EvPrint s) w)
    end.

(** [input(prompt)]: the prompt is written, then a line is read. *)
Definition input (prompt : str) : M X str :=
  fun w =>
    match stdout_error hz (ext w) prompt with
    | Some e => (Raise e, w)
    | None => Comp.input prompt w
    end.

(** [PyPDFLoader(file_path)] or [TextLoader(file_path, encoding=...)]: the
    loader, when its constructor returns. *)
Definition construct (l : Loader) : M X Loader :=
  fun w =>
    let '(r, x) := loader_init hz (ext w) l in
    (match r with Ok _ => Ok l | Raise e => Raise e end,
     MkWorld (stdin w) (trace w) x).

Definition get_loader (file_path : str) : M X Loader :=
  if endswith (str_lower rt file_path) (lit ".pdf") then
    construct (PyPDFLoader file_path)
  else if endswith (str_lower rt file_path) (lit ".txt") then
    construct (TextLoader file_path (lit "utf8"))
  else raise (Exn ValueError Msg.unsupported).

Definition choose_file : M X str :=
  let dir := current_dir rt in
  let! listing := observe (EvListdir dir) (fun x => os_listdir rt x dir) in
  let! files := (fun w => (Ok (files_dict rt (ext w) listing), w)) in
  do! print Msg.available in
  do! for_each (fun '(i, f) => print (i ++ lit ". " ++ f)) files in
  let! raw := input Msg.enter_id in
  let chosen_id := strip raw in
  match dict_get chosen_id files with
  | Some (c :: name) => ret (path_join dir (c :: name))
  | _ => raise (Exn FileNotFoundError Msg.file_not_found)
  end.

Definition get_query : M X str :=
  let! raw := input Msg.ask in ret (strip raw).

Definition display_results (results : pyval) : M X unit :=
  do! print Msg.top_results in
  let! documents := lift (subscript_str results (lit "documents")) in
  let! first := lift (subscript_0 documents) in
  let! docs := lift (iterate first) in
  for_each
    (fun '(i, doc) =>
       print (10%N :: lit "Result " ++ of_nat (i + 1) ++ lit ":" ++ 10%N :: format rt doc))
    (enumerate docs).

Context {E : Type} {iface : EmbeddingInterface X E}.

(** One pass through the body of the inner [while True]: [true] when it
    ends in [break]. *)
Definition query_step (self : AppController (E := E)) : M X bool :=
  let! query := get_query in
  if is_q rt query then
    do! print Msg.done_with_document in ret true
  else
    let! query_embedding := embed_query (embedding_service self) query in
    let! results := query_documents rt query_embedding in
    do! display_results results in
    ret false.

Fixpoint query_loop_fuel (self : AppController (E := E)) (fuel : nat) : M X unit :=
  let! stop := query_step self in
  if stop then ret tt
  else match fuel with
       | 0 => ret tt
       | S fuel' => query_loop_fuel self fuel'
       end.

Definition query_loop (self : AppController (E := E)) : M X unit :=
  fun w => query_loop_fuel self (length (stdin w)) w.

(** The body of the [try] of one pass through the outer loop. *)
Definition session_body (self : AppController (E := E)) : M X loop_ctl :=
  do! print Msg.new_session in
  let! file_path := choose_file in
  if is_q rt file_path then
    do! print Msg.goodbye in ret Break
  else
    let! loader := get_loader file_path in
    let! r := process rt (processor self) loader in
    let '(texts, metadatas, ids) := r in
    let! embeddings := embed_documents (embedding_service self) texts in
    do! add_documents rt texts metadatas ids embeddings in
    do! print Msg.stored in
    do! query_loop self in
    ret Next.

(** The [except Exception as e] clause: its [print] is not guarded. *)
Definition report (e : exn) : M X loop_ctl :=
  do! print (Msg.error_prefix ++ exn_str e) in ret Next.

Definition session (self : AppController (E := E)) : M X loop_ctl :=
  try_except_Exception (session_body self) report.

Fixpoint run (self : AppController (E := E)) (fuel : nat) (w : World X)
  : run_end * World X :=
  match fuel with
  | 0 => (StillRunning, w)
  | S fuel' =>
      match session self w with
      | (Ok Break, w') => (Exited, w')
      | (Ok Next, w') => run self fuel' w'
      | (Raise e, w') => (Uncaught e, w')
      end
  end.

End Program.

Section Main.

Context {X : Type} (hz : Hazards X) (rt : Runtime X).

Definition main (fuel : nat) (w : World X) : run_end * World X :=
  match getenv rt (lit "JINA_API_KEY") w with
  | (Ok (Some (c :: key)), w1) =>
      let embedding_service := JinaAIEmbeddings_init (c :: key) in
      match AppController_init rt embedding_service w1 with
      | (Ok app, w2) =>
          run hz rt (iface := JinaAIEmbeddings_interface rt) app fuel w2
      | (Raise e, w2) => (Uncaught e, w2)
      end
  | (Ok _, w1) => (Uncaught (Exn ValueError Msg.no_api_key), w1)
  | (Raise e, w1) => (Uncaught e, w1)
  end.

End Main.

End Full.

(** ** Case folding *)

(** ASCII lower case. *)
Definition ascii_lower (c : char) : char :=
  if ((65 <=? c) && (c <=? 90))%N then (c + 32)%N else c.

(** The characters of the two extensions. *)
Definition extension_chars : str := lit ".pdftx".

(** What [str.lower] makes of one character: an ASCII character becomes its
    ASCII lower case; any other becomes one or more characters, none of
    them a character of the extensions. *)
Definition lowers_to (c : char) (piece : str) : Prop :=
  if (c <? 128)%N then piece = [ascii_lower c]
  else piece <> [] /\ Forall (fun d => d ∉ extension_chars) piece.

(** [str.lower] works character by character (the lower case of a capital
    sigma depends on its neighbours, which [pieces] allows for). *)
Definition python_lower (lower : str -> str) : Prop :=
  forall s, exists pieces, lower s = concat pieces /\ Forall2 lowers_to s pieces.

(** ** More concrete surroundings *)

Module Demo2.

(** The concrete surrounding with the program in the directory [d]. *)
Definition rt_in (d : str) : Runtime Demo.state :=
  {| str_lower := str_lower Demo.rt;
     py_format := py_format Demo.rt;
     current_dir := d;
     os_getenv := os_getenv Demo.rt;
     os_listdir := fun x _ => Ok (map fst (Demo.entries x));
     os_isfile := fun x p =>
       existsb (fun e => snd e && eqb (path_join d (fst e)) p) (Demo.entries x);
     loader_load := loader_load Demo.rt;
     split_documents := split_documents Demo.rt;
     requests_post := requests_post Demo.rt;
     chroma_get_or_create_collection := chroma_get_or_create_collection Demo.rt;
     collection_add := collection_add Demo.rt;
     collection_query := collection_query Demo.rt |}.

(** A directory in which the regular files come first. *)
Definition x_files_first : Demo.state :=
  {| Demo.env_key := Some (lit "secret");
     Demo.entries := [(lit "a.txt", true); (lit "b.txt", true); (lit "venv", false)];
     Demo.stored := 0 |}.

Definition unicode_encode_error : exn :=
  Exn (OtherException (lit "UnicodeEncodeError"))
      (lit "'ascii' codec can't encode character").

(** A console that takes ASCII only; constructors that do not fail. *)
Definition ascii_console : Hazards Demo.state :=
  {| stdout_error := fun _ s =>
       if forallb (fun c => (c <? 128)%N) s then None else Some unicode_encode_error;
     loader_init := fun x _ => (Ok tt, x) |}.

(** A working console; a PDF constructor that refuses a path that is no
    regular file. *)
Definition checking_pdf : Hazards Demo.state :=
  {| stdout_error := fun _ _ => None;
     loader_init := fun x l =>
       match l with
       | PyPDFLoader p =>
           if os_isfile Demo.rt x p then (Ok tt, x)
           else (Raise (Exn ValueError (lit "File path is not a valid file or url")), x)
       | TextLoader _ _ => (Ok tt, x)
       end |}.

End Demo2.

(** A decidable proposition settled by evaluating its decision. *)
Ltac by_computation := apply (bool_decide_unpack _); vm_compute; exact I.

(** * Properties *)

(** Stdlib's [map] is stdpp's [fmap] on lists. *)
Lemma map_fmap {A B} (f : A -> B) (l : list A) : map f l = f <$> l.
Proof. reflexivity. Qed.

(** ** Strings *)

Example strip_example : strip (lit "  1 " ++ [160%N]) = lit "1".
Proof. reflexivity. Qed.

Example endswith_example : endswith (lit "/home/u/notes.txt") (lit ".txt") = true.
Proof. reflexivity. Qed.

Example of_nat_example : map of_nat [0; 7; 10; 462] = map lit ["0"; "7"; "10"; "462"]%string.
Proof. reflexivity. Qed.

Example path_join_example :
  path_join (lit "/srv/app") (lit "a.txt") = lit "/srv/app/a.txt"
  /\ path_join (lit "/srv/app/") (lit "a.txt") = lit "/srv/app/a.txt"
  /\ path_join [] (lit "q") = lit "q".
Proof. repeat split; reflexivity. Qed.

Lemma eqb_true (s t : str) : eqb s t = true <-> s = t.
Proof. unfold eqb. apply bool_decide_eq_true. Qed.

Lemma eqb_false (s t : str) : eqb s t = false <-> s <> t.
Proof. unfold eqb. apply bool_decide_eq_false. Qed.

Lemma eqb_refl (s : str) : eqb s s = true.
Proof. by apply eqb_true. Qed.

Lemma ascii_of_N_of_ascii_list (l : list ascii) :
  map ascii_of_N (map N_of_ascii l) = l.
Proof.
  induction l as [|a l IH]; cbn; [done|].
  by rewrite ascii_N_embedding, IH.
Qed.

Lemma lit_inj (s t : string) : lit s = lit t -> s = t.
Proof.
  unfold lit. intros H.
  apply (f_equal (map ascii_of_N)) in H.
  rewrite !ascii_of_N_of_ascii_list in H.
  rewrite <- (string_of_list_ascii_of_string s), <- (string_of_list_ascii_of_string t).
  by rewrite H.
Qed.

Lemma string_of_uint_inj (d d' : Decimal.uint) :
  NilEmpty.string_of_uint d = NilEmpty.string_of_uint d' -> d = d'.
Proof.
  intros H. apply (f_equal NilEmpty.uint_of_string) in H.
  rewrite !NilEmpty.usu in H. by injection H.
Qed.

Lemma of_nat_inj (n m : nat) : of_nat n = of_nat m -> n = m.
Proof.
  unfold of_nat. intros H.
  apply lit_inj, string_of_uint_inj in H.
  apply (f_equal Nat.of_uint) in H.
  by rewrite !Unsigned.of_to in H.
Qed.

Lemma string_of_uint_digits (d : Decimal.uint) :
  Forall (fun c => isdigit c = true) (lit (NilEmpty.string_of_uint d)).
Proof.
  unfold lit. induction d; cbn; try constructor; try reflexivity; exact IHd.
Qed.

(** [str(n)] consists of decimal digits only. *)
Lemma of_nat_digits (n : nat) : Forall (fun c => isdigit c = true) (of_nat n).
Proof. apply string_of_uint_digits. Qed.

Lemma of_nat_not_q (n : nat) : of_nat n <> lit "q".
Proof.
  intros H. pose proof (of_nat_digits n) as Hd. rewrite H in Hd.
  inversion Hd as [|? ? Hq _]. discriminate Hq.
Qed.

(** No string ends in both of two different suffixes of one length. *)
Lemma endswith_same_length (s a b : str) :
  length a = length b -> a <> b -> endswith s a = true -> endswith s b = false.
Proof.
  unfold endswith. intros Hlen Hne Ha.
  apply andb_true_iff in Ha as [_ Ha]. apply eqb_true in Ha.
  apply andb_false_iff. right. apply eqb_false.
  rewrite <- Hlen, Ha. exact Hne.
Qed.

Lemma endswith_suffix (s suf : str) :
  endswith s suf = true <-> exists pre, s = pre ++ suf.
Proof.
  unfold endswith. rewrite andb_true_iff, eqb_true, Nat.leb_le. split.
  - intros [Hle Hd]. exists (take (length s - length suf) s).
    rewrite <- (take_drop (length s - length suf) s) at 1. by rewrite Hd.
  - intros [pre ->]. rewrite length_app. split; [lia|].
    replace (length pre + length suf - length suf) with (length pre) by lia.
    by rewrite drop_app_length.
Qed.

Lemma startswith_prefix (s pre : str) :
  startswith s pre = true <-> exists rest, s = pre ++ rest.
Proof.
  unfold startswith. rewrite eqb_true. split.
  - intros H. exists (drop (length pre) s).
    rewrite <- (take_drop (length pre) s) at 1. by rewrite H.
  - intros [rest ->]. by rewrite take_app_length.
Qed.

(** For a character-wise case folding, [s.lower().endswith(ext)] is the
    comparison of the extension without regard to case. *)
Lemma endswith_lower_ci (lower : char -> char) (path ext : str) :
  endswith (map lower path) ext = true <-> has_extension_ci lower path ext.
Proof.
  rewrite endswith_suffix. unfold has_extension_ci. split.
  - intros [pre H]. rewrite map_fmap in H.
    apply fmap_app_inv in H as (stem & suffix & _ & Hs & ->).
    exists stem, suffix. by rewrite map_fmap.
  - intros (stem & suffix & -> & <-). exists (map lower stem).
    by rewrite map_app.
Qed.

(** ** Dicts *)

Lemma dict_set_fresh {V} (k : str) (v : V) (d : list (str * V)) :
  k ∉ map fst d -> dict_set k v d = d ++ [(k, v)].
Proof.
  induction d as [|[k' v'] d IH]; cbn; [done|].
  intros Hk. apply not_elem_of_cons in Hk as [Hne Hk].
  destruct (eqb k' k) eqn:E.
  - apply eqb_true in E. congruence.
  - by rewrite IH.
Qed.

Lemma dict_get_None {V} (k : str) (d : list (str * V)) :
  dict_get k d = None <-> k ∉ map fst d.
Proof.
  induction d as [|[k' v'] d IH]; cbn.
  - split; [intros _; apply not_elem_of_nil | done].
  - destruct (eqb k' k) eqn:E.
    + apply eqb_true in E. subst. split; [done|].
      intros H. exfalso. apply H. left.
    + apply eqb_false in E. rewrite IH, not_elem_of_cons.
      split; [intros H; split; [congruence | done] | by intros [_ ?]].
Qed.

Lemma dict_get_Some_lookup {V} (k : str) (v : V) (d : list (str * V)) (i : nat) :
  NoDup (map fst d) -> d !! i = Some (k, v) -> dict_get k d = Some v.
Proof.
  revert i. induction d as [|[k' v'] d IH]; intros i Hnd Hi; [done|].
  cbn in Hnd. apply NoDup_cons in Hnd as [Hk' Hnd]. cbn.
  destruct i as [|i]; simpl in Hi.
  - injection Hi as -> ->. by rewrite eqb_refl.
  - destruct (eqb k' k) eqn:E.
    + apply eqb_true in E. subst. exfalso. apply Hk'.
      apply list_elem_of_lookup. exists i.
      by rewrite map_fmap, list_lookup_fmap, Hi.
    + by apply (IH i).
Qed.

(** ** Computations *)

Lemma for_each_print {X A} (f : A -> M X unit) (g : A -> str) (l : list A)
    (w : World X) :
  (forall a, f a = print (g a)) ->
  for_each f l w
  = (Ok tt, MkWorld (stdin w) (trace w ++ map (fun a => EvPrint (g a)) l) (ext w)).
Proof.
  intros Hf. revert w. induction l as [|a l IH]; intros [i t x]; cbn.
  - unfold ret. by rewrite app_nil_r.
  - unfold bind. rewrite Hf. cbn. rewrite IH. cbn.
    by rewrite <- app_assoc.
Qed.

(** ** The selection table of [choose_file] *)

Section SelectionFacts.

Context {X : Type} (rt : Runtime X).

Lemma files_dict_fold (x : X) (l : list str) (s : nat) (acc : list (str * str)) :
  Forall (fun kv => exists j, j < s /\ fst kv = of_nat (j + 1)) acc ->
  fold_left (files_step rt x) (combine (seq s (length l)) l) acc
  = acc ++ numbered rt x (combine (seq s (length l)) l).
Proof.
  revert s acc. induction l as [|f l IH]; intros s acc Hacc; cbn.
  - by rewrite app_nil_r.
  - unfold is_regular at 1. cbn.
    destruct (os_isfile rt x (path_join (current_dir rt) f)) eqn:Ereg.
    + rewrite dict_set_fresh.
      * rewrite IH.
        -- by rewrite <- app_assoc.
        -- apply Forall_app. split.
           ++ eapply Forall_impl; [exact Hacc|].
              intros kv (j & Hj & Hk). exists j. split; [lia | done].
           ++ constructor; [|constructor]. exists s. split; [lia | done].
      * intros Hin. rewrite map_fmap in Hin.
        apply list_elem_of_fmap in Hin as ([k v] & Hk & Hin).
        rewrite Forall_forall in Hacc.
        destruct (Hacc _ Hin) as (j & Hj & Hkj). cbn in *. subst k.
        apply of_nat_inj in Hkj. lia.
    + apply IH. eapply Forall_impl; [exact Hacc|].
      intros kv (j & Hj & Hk). exists j. split; [lia | done].
Qed.

(** The dict comprehension never overwrites a key: the table is the
    listing's regular files in listing order. *)
Lemma files_dict_numbered (x : X) (listing : list str) :
  files_dict rt x listing = numbered rt x (enumerate listing).
Proof.
  unfold files_dict, enumerate.
  by rewrite files_dict_fold.
Qed.

Lemma files_dict_names (x : X) (listing : list str) :
  map snd (files_dict rt x listing) = List.filter (is_regular rt x) listing.
Proof.
  rewrite files_dict_numbered. unfold numbered, enumerate.
  rewrite map_map. cbn.
  generalize 0. induction listing as [|f l IH]; intros s; cbn; [done|].
  destruct (is_regular rt x f); cbn; by rewrite IH.
Qed.

Lemma displayed_ids_positions (x : X) (listing : list str) :
  displayed_ids rt x listing
  = map (fun i => of_nat (i + 1)) (regular_positions rt x listing).
Proof.
  unfold displayed_ids, regular_positions.
  rewrite files_dict_numbered. unfold numbered. by rewrite !map_map.
Qed.

Lemma enumerate_lookup {A} (l : list A) (s i : nat) (a : A) :
  (i, a) ∈ combine (seq s (length l)) l <-> s <= i /\ l !! (i - s) = Some a.
Proof.
  revert s. induction l as [|b l IH]; intros s; cbn.
  - split; [intros H; by apply elem_of_nil in H | by intros [_ ?]].
  - rewrite elem_of_cons, IH. split.
    + intros [Heq | [Hle Hl]].
      * injection Heq as -> ->. split; [lia|]. by rewrite Nat.sub_diag.
      * split; [lia|]. by replace (i - s) with (S (i - S s)) by lia.
    + intros [Hle Hl]. destruct (decide (i = s)) as [->|Hne].
      * left. rewrite Nat.sub_diag in Hl. cbn in Hl. congruence.
      * right. split; [lia|].
        by replace (i - s) with (S (i - S s)) in Hl by lia.
Qed.

Lemma enumerate_positions_sorted {A} (l : list A) (s : nat) :
  map fst (combine (seq s (length l)) l) = seq s (length l).
Proof.
  revert s. induction l as [|a l IH]; intros s; cbn; [done|]. by rewrite IH.
Qed.

(** An entry of the table: a regular file of the listing under its position
    counted from 1. *)
Lemma files_dict_elem (x : X) (listing : list str) (k f : str) :
  (k, f) ∈ files_dict rt x listing
  <-> exists i, k = of_nat (i + 1) /\ listing !! i = Some f
                /\ is_regular rt x f = true.
Proof.
  rewrite files_dict_numbered. unfold numbered, enumerate.
  rewrite map_fmap, list_elem_of_fmap. split.
  - intros ([i g] & Heq & Hin). cbn in Heq. injection Heq as -> ->.
    apply list_elem_of_In, filter_In in Hin as [Hin Hreg].
    apply list_elem_of_In, enumerate_lookup in Hin as [_ Hl].
    rewrite Nat.sub_0_r in Hl. by exists i.
  - intros (i & -> & Hl & Hreg). exists (i, f). split; [done|].
    apply list_elem_of_In, filter_In. split; [|done].
    apply list_elem_of_In, enumerate_lookup. split; [lia|].
    by rewrite Nat.sub_0_r.
Qed.

Lemma NoDup_filter_fst {A B} (P : A * B -> bool) (l : list (A * B)) :
  NoDup (map fst l) -> NoDup (map fst (List.filter P l)).
Proof.
  induction l as [|[a b] l IH]; cbn; [done|].
  intros Hnd. apply NoDup_cons in Hnd as [Ha Hnd].
  destruct (P (a, b)); cbn; [|by apply IH].
  apply NoDup_cons. split; [|by apply IH].
  intros Hin. apply Ha. rewrite map_fmap in *.
  apply list_elem_of_fmap in Hin as ([a' b'] & -> & Hin). cbn.
  apply list_elem_of_fmap. exists (a', b'). split; [done|].
  by apply list_elem_of_In, filter_In in Hin as [Hin%list_elem_of_In _].
Qed.

(** The selection ids are pairwise different. *)
Lemma displayed_ids_NoDup (x : X) (listing : list str) :
  NoDup (displayed_ids rt x listing).
Proof.
  rewrite displayed_ids_positions. rewrite map_fmap.
  apply NoDup_fmap_2.
  - intros i j H. apply of_nat_inj in H. lia.
  - unfold regular_positions, enumerate. apply NoDup_filter_fst.
    rewrite enumerate_positions_sorted. apply NoDup_ListNoDup, List.seq_NoDup.
Qed.

Lemma dict_get_Some_elem {V} (k : str) (v : V) (d : list (str * V)) :
  NoDup (map fst d) -> (dict_get k d = Some v <-> (k, v) ∈ d).
Proof.
  intros Hnd. split.
  - clear Hnd. induction d as [|[k' v'] d IH]; cbn; [done|].
    destruct (eqb k' k) eqn:E.
    + apply eqb_true in E. intros [= ->]. subst. left.
    + intros H. right. by apply IH.
  - intros Hin. apply list_elem_of_lookup in Hin as [i Hi].
    by eapply dict_get_Some_lookup.
Qed.

(** Looking a selection up in the table. *)
Lemma files_dict_get (x : X) (listing : list str) (k f : str) :
  dict_get k (files_dict rt x listing) = Some f
  <-> exists i, k = of_nat (i + 1) /\ listing !! i = Some f
                /\ is_regular rt x f = true.
Proof.
  rewrite <- files_dict_elem. apply dict_get_Some_elem.
  apply (displayed_ids_NoDup x listing).
Qed.

Lemma files_dict_get_None (x : X) (listing : list str) (k : str) :
  dict_get k (files_dict rt x listing) = None <-> k ∉ displayed_ids rt x listing.
Proof. apply dict_get_None. Qed.

End SelectionFacts.

(** ** [choose_file] *)

Section ChooseFileFacts.

Context {X : Type} (rt : Runtime X).

Lemma choose_file_listdir_raises (w : World X) (e : exn) :
  os_listdir rt (ext w) (current_dir rt) = Raise e ->
  choose_file rt w = (Raise e, log (EvListdir (current_dir rt)) w).
Proof.
  intros H. unfold choose_file, bind, observe. by rewrite H.
Qed.

Lemma choose_file_prompt (w : World X) (listing : list str) :
  os_listdir rt (ext w) (current_dir rt) = Ok listing ->
  choose_file rt w
  = match stdin w with
    | [] =>
        (Raise (Exn EOFError (lit "EOF when reading a line")),
         MkWorld [] (file_prompt_trace rt w listing) (ext w))
    | Line raw :: rest =>
        (selection rt (ext w) listing raw,
         MkWorld rest (file_prompt_trace rt w listing) (ext w))
    | CtrlC :: rest =>
        (Raise (Exn KeyboardInterrupt []),
         MkWorld rest (file_prompt_trace rt w listing) (ext w))
    end.
Proof.
  intros H. destruct w as [inp tr x]. cbn in H.
  unfold choose_file. unfold bind at 1. unfold observe. cbn. rewrite H.
  unfold bind at 1. unfold print at 1. unfold bind at 1.
  rewrite (for_each_print _ (fun p => fst p ++ lit ". " ++ snd p))
    by (by intros [i f]).
  unfold bind, input, log, file_prompt_trace, displayed_lines, selection. cbn.
  destruct inp as [|[raw|] rest]; cbn; rewrite <- ?app_assoc; cbn; try done.
  destruct (dict_get (strip raw) (files_dict rt x listing)) as [[|c name]|]; done.
Qed.

Lemma choose_file_line (w : World X) (listing : list str) (raw : str)
    (rest : list stdin_event) :
  os_listdir rt (ext w) (current_dir rt) = Ok listing ->
  stdin w = Line raw :: rest ->
  choose_file rt w
  = (selection rt (ext w) listing raw,
     MkWorld rest (file_prompt_trace rt w listing) (ext w)).
Proof. intros Hl Hs. rewrite (choose_file_prompt w listing Hl). by rewrite Hs. Qed.

Lemma selection_unmatched (x : X) (listing : list str) (raw : str) :
  strip raw ∉ displayed_ids rt x listing ->
  selection rt x listing raw = Raise (Exn FileNotFoundError Msg.file_not_found).
Proof.
  intros H. apply files_dict_get_None in H. unfold selection. by rewrite H.
Qed.

Lemma selection_matched (x : X) (listing : list str) (raw f : str) (i : nat) :
  strip raw = of_nat (i + 1) ->
  listing !! i = Some f ->
  is_regular rt x f = true ->
  f <> [] ->
  selection rt x listing raw = Ok (path_join (current_dir rt) f).
Proof.
  intros Hraw Hl Hreg Hne. unfold selection.
  assert (dict_get (strip raw) (files_dict rt x listing) = Some f) as ->.
  { apply files_dict_get. by exists i. }
  by destruct f.
Qed.

Lemma path_join_isabs (a b : str) : isabs a = true -> isabs (path_join a b) = true.
Proof.
  unfold isabs, path_join. intros Ha.
  destruct (startswith b (lit "/")) eqn:Eb; [done|].
  apply startswith_prefix in Ha as [rest ->].
  destruct (_ || _); apply startswith_prefix; eexists; by rewrite <- app_assoc.
Qed.

(** Joining a name that does not start with a slash keeps the directory's
    kind of path. *)
Lemma path_join_isabs_iff (a b : str) :
  startswith b (lit "/") = false -> isabs (path_join a b) = isabs a.
Proof.
  unfold isabs, path_join. intros Hb. rewrite Hb.
  assert (lit "/" = [47%N]) as Hslash by reflexivity.
  rewrite Hslash in *. unfold startswith in *. cbn [length take] in *.
  destruct a as [|c a].
  - rewrite eqb_refl. cbn [orb app]. by rewrite Hb.
  - by destruct (eqb (c :: a) [] || endswith (c :: a) [47%N]).
Qed.

End ChooseFileFacts.

(** C9.  A line typed at the file prompt that, trimmed, is none of the
    displayed selection ids makes [choose_file] raise [FileNotFoundError]
    ("File not found."); no path is returned. *)
Theorem choose_file_unmatched_raises {X} (rt : Runtime X) (w : World X)
    (listing : list str) (raw : str) (rest : list stdin_event) :
  os_listdir rt (ext w) (current_dir rt) = Ok listing ->
  stdin w = Line raw :: rest ->
  strip raw ∉ displayed_ids rt (ext w) listing ->
  choose_file rt w
  = (Raise (Exn FileNotFoundError Msg.file_not_found),
     MkWorld rest (file_prompt_trace rt w listing) (ext w)).
Proof.
  intros Hl Hs Hid. rewrite (choose_file_line rt w listing raw rest Hl Hs).
  by rewrite selection_unmatched.
Qed.

Lemma filter_all {A} (P : A -> bool) (l : list A) :
  (forall a, a ∈ l -> P a = true) -> List.filter P l = l.
Proof.
  induction l as [|a l IH]; intros H; cbn; [done|].
  rewrite (H a) by left. rewrite IH; [done|]. intros b Hb. apply H. by right.
Qed.

Lemma regular_positions_all {X} (rt : Runtime X) (x : X) (listing : list str) :
  (forall f, f ∈ listing -> is_regular rt x f = true) ->
  regular_positions rt x listing = seq 0 (length listing).
Proof.
  intros Hall. unfold regular_positions, enumerate.
  rewrite filter_all; [apply enumerate_positions_sorted|].
  intros [i f] Hin. cbn. apply enumerate_lookup in Hin as [_ Hin].
  apply Hall. apply list_elem_of_lookup. by eexists.
Qed.

Lemma positions_from_length {X} (rt : Runtime X) (x : X) (l : list str) (s : nat) :
  length (List.filter (fun p : nat * str => is_regular rt x (snd p))
            (combine (seq s (length l)) l))
  = length (List.filter (is_regular rt x) l).
Proof.
  revert s. induction l as [|f l IH]; intros s; cbn; [done|].
  destruct (is_regular rt x f); cbn; by rewrite IH.
Qed.

Lemma positions_from_ge {X} (rt : Runtime X) (x : X) (l : list str) (s i : nat) :
  i ∈ map fst (List.filter (fun p : nat * str => is_regular rt x (snd p))
                 (combine (seq s (length l)) l)) ->
  s <= i.
Proof.
  rewrite map_fmap. intros Hin.
  apply list_elem_of_fmap in Hin as ([j f] & -> & Hin).
  apply list_elem_of_In, filter_In in Hin as [Hin _].
  by apply list_elem_of_In, enumerate_lookup in Hin as [Hle _].
Qed.

(** The positions of the regular files are 0, 1, ..., m-1 exactly when the
    first m entries of the listing are regular files. *)
Lemma positions_from_prefix {X} (rt : Runtime X) (x : X) (l : list str) (s : nat) :
  map fst (List.filter (fun p : nat * str => is_regular rt x (snd p))
             (combine (seq s (length l)) l))
  = seq s (length (List.filter (is_regular rt x) l))
  <-> Forall (fun f => is_regular rt x f = true)
        (take (length (List.filter (is_regular rt x) l)) l).
Proof.
  revert s. induction l as [|f l IH]; intros s; cbn; [done|].
  destruct (is_regular rt x f) eqn:Hreg; cbn.
  - rewrite Forall_cons. split.
    + intros [= H]. split; [done | by apply (IH (S s))].
    + intros [_ H]. f_equal. by apply (IH (S s)).
  - pose proof (positions_from_length rt x l (S s)) as Hlen.
    pose proof (positions_from_ge rt x l (S s)) as Hge.
    destruct (List.filter (is_regular rt x) l) as [|g fs] eqn:Hfs; cbn in *.
    + split; [done|]. intros _.
      by destruct (List.filter _ (combine _ l)).
    + split.
      * intros H. rewrite H in Hge.
        specialize (Hge s ltac:(left)). lia.
      * rewrite Forall_cons. intros [H _]. congruence.
Qed.

(** C2, as the code has it.  [choose_file] lists exactly the regular files
    of the program's directory, each under the number of its position in
    the whole directory listing counted from 1, entries that are not
    regular files included in the count.  The ids are pairwise different;
    they are 1..m, for m regular files, exactly when the first m entries
    of the listing are the regular files.  A line that, trimmed, is the id
    of a listed file makes [choose_file] return that file's name joined to
    the program's directory: a path that is absolute exactly when the
    directory's path is. *)
Theorem choose_file_table {X} (rt : Runtime X) (w : World X) (listing : list str) :
  os_listdir rt (ext w) (current_dir rt) = Ok listing ->
  let m := length (List.filter (is_regular rt (ext w)) listing) in
  map snd (files_dict rt (ext w) listing)
    = List.filter (is_regular rt (ext w)) listing
  /\ displayed_ids rt (ext w) listing
     = map (fun i => of_nat (i + 1)) (regular_positions rt (ext w) listing)
  /\ NoDup (displayed_ids rt (ext w) listing)
  /\ (displayed_ids rt (ext w) listing = map of_nat (seq 1 m)
      <-> Forall (fun f => is_regular rt (ext w) f = true) (take m listing))
  /\ ((forall f, f ∈ listing -> is_regular rt (ext w) f = true) ->
      displayed_ids rt (ext w) listing = map of_nat (seq 1 (length listing)))
  /\ (forall (i : nat) (f raw : str) (rest : list stdin_event),
        stdin w = Line raw :: rest ->
        strip raw = of_nat (i + 1) ->
        listing !! i = Some f ->
        is_regular rt (ext w) f = true ->
        f <> [] ->
        choose_file rt w
        = (Ok (path_join (current_dir rt) f),
           MkWorld rest (file_prompt_trace rt w listing) (ext w))
        /\ (startswith f (lit "/") = false ->
            isabs (path_join (current_dir rt) f) = isabs (current_dir rt))).
Proof.
  intros Hl m. split; [apply files_dict_names|].
  split; [apply displayed_ids_positions|].
  split; [apply displayed_ids_NoDup|].
  split; [|split].
  - rewrite displayed_ids_positions. unfold m.
    rewrite <- (positions_from_prefix rt (ext w) listing 0).
    fold (enumerate listing). fold (regular_positions rt (ext w) listing).
    assert (map of_nat (seq 1 (length (List.filter (is_regular rt (ext w)) listing)))
            = map (fun i => of_nat (i + 1))
                (seq 0 (length (List.filter (is_regular rt (ext w)) listing))))
      as ->.
    { rewrite <- List.seq_shift, map_map. apply map_ext. intros i. f_equal. lia. }
    split; [|by intros ->].
    generalize (regular_positions rt (ext w) listing).
    generalize (seq 0 (length (List.filter (is_regular rt (ext w)) listing))).
    intros l2 l1. revert l2.
    induction l1 as [|i l1 IH]; intros [|j l2]; cbn; try done.
    intros [= Hij Htl]. apply of_nat_inj in Hij. f_equal; [lia | by apply IH].
  - intros Hall. rewrite displayed_ids_positions, regular_positions_all by done.
    rewrite <- List.seq_shift, map_map. apply map_ext. intros i. f_equal. lia.
  - intros i f raw rest Hs Hraw Hi Hreg Hne. split.
    + rewrite (choose_file_line rt w listing raw rest Hl Hs).
      by rewrite (selection_matched rt (ext w) listing raw f i).
    + apply path_join_isabs_iff.
Qed.

(** ** One pass through the outer loop *)

Section SessionFacts.

Context {X : Type} (rt : Runtime X) {E : Type} {iface : EmbeddingInterface X E}.
Implicit Types (self : AppController (E := E)) (w : World X).

Lemma session_body_selecting self w e w1 :
  choose_file rt (log (EvPrint Msg.new_session) w) = (Raise e, w1) ->
  session_body rt self w = (Raise e, w1).
Proof.
  intros H. unfold session_body, bind at 1, print at 1.
  unfold bind at 1. by rewrite H.
Qed.

Lemma session_body_selected self w path w1 :
  choose_file rt (log (EvPrint Msg.new_session) w) = (Ok path, w1) ->
  is_q rt path = false ->
  session_body rt self w
  = (let! loader := lift (get_loader rt path) in
     let! r := process rt (processor self) loader in
     let '(texts, metadatas, ids) := r in
     let! embeddings := embed_documents (embedding_service self) texts in
     do! add_documents rt texts metadatas ids embeddings in
     do! print Msg.stored in
     do! query_loop rt self in
     ret Next) w1.
Proof.
  intros H Hq. unfold session_body, bind at 1, print at 1.
  unfold bind at 1. rewrite H. by rewrite Hq.
Qed.

(** An exception raised at any stage of the [try] body is what the body
    ends with. *)
Lemma raised_during_body self w st e w' :
  raised_during rt self w st e w' -> session_body rt self w = (Raise e, w').
Proof.
  intros H. destruct H as
    [e w1 Hc | path e w1 Hc Hq Hg | path loader e w1 w2 Hc Hq Hg Hp
    | path loader texts metadatas ids e w1 w2 w3 Hc Hq Hg Hp He
    | path loader texts metadatas ids embeddings e w1 w2 w3 w4 Hc Hq Hg Hp He Ha
    | path loader texts metadatas ids embeddings e w1 w2 w3 w4 w5
        Hc Hq Hg Hp He Ha Hl].
  - by apply session_body_selecting.
  - rewrite (session_body_selected self w path w1 Hc Hq).
    unfold bind at 1, lift. by rewrite Hg.
  - rewrite (session_body_selected self w path w1 Hc Hq).
    unfold bind at 1, lift. rewrite Hg. unfold bind at 1. by rewrite Hp.
  - rewrite (session_body_selected self w path w1 Hc Hq).
    unfold bind at 1, lift. rewrite Hg. unfold bind at 1. rewrite Hp.
    unfold bind at 1. by rewrite He.
  - rewrite (session_body_selected self w path w1 Hc Hq).
    unfold bind at 1, lift. rewrite Hg. unfold bind at 1. rewrite Hp.
    unfold bind at 1. rewrite He. unfold bind at 1. by rewrite Ha.
  - rewrite (session_body_selected self w path w1 Hc Hq).
    unfold bind at 1, lift. rewrite Hg. unfold bind at 1. rewrite Hp.
    unfold bind at 1. rewrite He. unfold bind at 1. rewrite Ha.
    unfold bind at 1, print at 1. unfold bind at 1. by rewrite Hl.
Qed.

(** And the other way round: an exception the body ends with was raised at
    one of its stages. *)
Lemma body_raises_at_some_stage self w e w' :
  session_body rt self w = (Raise e, w') ->
  exists st, raised_during rt self w st e w'.
Proof.
  destruct (choose_file rt (log (EvPrint Msg.new_session) w))
    as [[path|e0] w1] eqn:Hc.
  2:{ rewrite (session_body_selecting self w e0 w1 Hc). intros [= <- <-].
      exists Selecting. by constructor. }
  destruct (is_q rt path) eqn:Hq.
  { unfold session_body, bind at 1, print at 1. unfold bind at 1.
    rewrite Hc, Hq. unfold bind, print, ret. done. }
  rewrite (session_body_selected self w path w1 Hc Hq).
  unfold bind at 1, lift.
  destruct (get_loader rt path) as [loader|e0] eqn:Hg.
  2:{ intros [= <- <-]. exists ChoosingLoader. by econstructor. }
  unfold bind at 1.
  destruct (process rt (processor self) loader w1)
    as [[[[texts metadatas] ids]|e0] w2] eqn:Hp.
  2:{ intros [= <- <-]. exists Processing. by econstructor. }
  unfold bind at 1.
  destruct (embed_documents (embedding_service self) texts w2)
    as [[embeddings|e0] w3] eqn:He.
  2:{ intros [= <- <-]. exists Embedding. by econstructor. }
  unfold bind at 1.
  destruct (add_documents rt texts metadatas ids embeddings w3)
    as [[[]|e0] w4] eqn:Ha.
  2:{ intros [= <- <-]. exists Storing. by econstructor. }
  unfold bind at 1, print at 1. unfold bind at 1.
  destruct (query_loop rt self (log (EvPrint Msg.stored) w4))
    as [[[]|e0] w5] eqn:Hl.
  { unfold ret. done. }
  intros [= <- <-]. exists Querying. by econstructor.
Qed.

Lemma session_caught self w e w' :
  session_body rt self w = (Raise e, w') ->
  is_Exception (exn_cls e) = true ->
  session rt self w = (Ok Next, log (EvPrint (Msg.error_prefix ++ exn_str e)) w').
Proof.
  intros Hb He. unfold session, try_except_Exception. by rewrite Hb, He.
Qed.

Lemma session_uncaught self w e w' :
  session_body rt self w = (Raise e, w') ->
  is_Exception (exn_cls e) = false ->
  session rt self w = (Raise e, w').
Proof.
  intros Hb He. unfold session, try_except_Exception. by rewrite Hb, He.
Qed.

(** The only way out of the loop by [break]: [choose_file] returned a path
    that, lower-cased and trimmed, is 'q'. *)
Lemma session_breaks self w w' :
  session rt self w = (Ok Break, w') ->
  exists path w1,
    choose_file rt (log (EvPrint Msg.new_session) w) = (Ok path, w1)
    /\ is_q rt path = true
    /\ w' = log (EvPrint Msg.goodbye) w1.
Proof.
  unfold session, try_except_Exception.
  destruct (session_body rt self w) as [[[|]|e] wb] eqn:Hb.
  3:{ unfold report, bind, print, ret. by destruct (is_Exception (exn_cls e)). }
  2:{ done. }
  intros [= <-]. revert Hb.
  destruct (choose_file rt (log (EvPrint Msg.new_session) w))
    as [[path|e0] w1] eqn:Hc.
  2:{ by rewrite (session_body_selecting self w e0 w1 Hc). }
  destruct (is_q rt path) eqn:Hq.
  { unfold session_body, bind at 1, print at 1. unfold bind at 1.
    rewrite Hc, Hq. unfold bind, print, ret. intros [= <-]. by exists path, w1. }
  rewrite (session_body_selected self w path w1 Hc Hq).
  unfold bind at 1, lift.
  destruct (get_loader rt path) as [loader|e0]; [|done].
  unfold bind at 1.
  destruct (process rt (processor self) loader w1)
    as [[[[texts metadatas] ids]|e0] w2]; [|done].
  unfold bind at 1.
  destruct (embed_documents (embedding_service self) texts w2)
    as [[embeddings|e0] w3]; [|done].
  unfold bind at 1.
  destruct (add_documents rt texts metadatas ids embeddings w3)
    as [[[]|e0] w4]; [|done].
  unfold bind at 1, print at 1. unfold bind at 1.
  by destruct (query_loop rt self (log (EvPrint Msg.stored) w4))
    as [[[]|e0] w5].
Qed.

Lemma run_next self w w' (fuel : nat) :
  session rt self w = (Ok Next, w') ->
  run rt self (S fuel) w = run rt self fuel w'.
Proof. intros H. cbn. by rewrite H. Qed.

Lemma run_uncaught self w w' e (fuel : nat) :
  session rt self w = (Raise e, w') ->
  run rt self (S fuel) w = (Uncaught e, w').
Proof. intros H. cbn. by rewrite H. Qed.

Lemma run_break self w w' (fuel : nat) :
  session rt self w = (Ok Break, w') ->
  run rt self (S fuel) w = (Exited, w').
Proof. intros H. cbn. by rewrite H. Qed.

End SessionFacts.

Lemma q_not_displayed {X} (rt : Runtime X) (x : X) (listing : list str) :
  lit "q" ∉ displayed_ids rt x listing.
Proof.
  rewrite displayed_ids_positions, map_fmap. intros Hin.
  apply list_elem_of_fmap in Hin as (i & Hi & _).
  symmetry in Hi. by apply of_nat_not_q in Hi.
Qed.

(** A selection that is no displayed id: the pass prints the error and the
    loop goes on. *)
Lemma session_unmatched_selection {X} (rt : Runtime X) {E : Type}
    {iface : EmbeddingInterface X E} (self : AppController (E := E))
    (w : World X) (listing : list str) (raw : str) (rest : list stdin_event) :
  os_listdir rt (ext w) (current_dir rt) = Ok listing ->
  stdin w = Line raw :: rest ->
  strip raw ∉ displayed_ids rt (ext w) listing ->
  session rt self w
  = (Ok Next,
     MkWorld rest
       (file_prompt_trace rt (log (EvPrint Msg.new_session) w) listing
        ++ [EvPrint (Msg.error_prefix ++ Msg.file_not_found)])
       (ext w)).
Proof.
  intros Hl Hs Hid.
  pose proof (choose_file_line rt (log (EvPrint Msg.new_session) w)
                listing raw rest Hl Hs) as Hc.
  cbn [ext log] in Hc. rewrite selection_unmatched in Hc by done.
  apply (session_body_selecting rt self) in Hc.
  by rewrite (session_caught rt self w _ _ Hc eq_refl).
Qed.

(** A line of the selection table starts with a digit or a dot; it is not
    the goodbye text. *)
Lemma displayed_line_not_goodbye {X} (rt : Runtime X) (x : X)
    (listing : list str) (ev : event) :
  ev ∈ displayed_lines rt x listing ->
  ev <> EvPrint Msg.goodbye /\ is_ingestion ev = false.
Proof.
  unfold displayed_lines. rewrite map_fmap. intros Hin.
  apply list_elem_of_fmap in Hin as ([k f] & -> & Hin). split; [|done].
  apply files_dict_elem in Hin as (i & -> & _). cbn.
  pose proof (of_nat_digits (i + 1)) as Hd.
  destruct (of_nat (i + 1)) as [|c k]; [discriminate|].
  inversion Hd as [|? ? Hc _]. subst. intros [= -> _]. discriminate Hc.
Qed.

(** C1, on the code.  With [q] typed at the file prompt, [choose_file]
    finds no such id and raises [FileNotFoundError] before the caller can
    compare anything with 'q': the pass prints the table, the prompt and
    the error, no goodbye, ingests nothing, and the outer loop goes on to
    its next pass. *)
Theorem q_at_file_prompt_continues {X} (rt : Runtime X) {E : Type}
    {iface : EmbeddingInterface X E} (self : AppController (E := E))
    (w : World X) (listing : list str) (raw : str) (rest : list stdin_event) :
  os_listdir rt (ext w) (current_dir rt) = Ok listing ->
  stdin w = Line raw :: rest ->
  strip raw = lit "q" ->
  let new :=
    EvPrint Msg.new_session :: EvListdir (current_dir rt)
    :: EvPrint Msg.available :: displayed_lines rt (ext w) listing
    ++ [EvPrompt Msg.enter_id;
        EvPrint (Msg.error_prefix ++ Msg.file_not_found)] in
  let w' := MkWorld rest (trace w ++ new) (ext w) in
  session rt self w = (Ok Next, w')
  /\ (forall fuel, run rt self (S fuel) w = run rt self fuel w')
  /\ Forall (fun ev => ev <> EvPrint Msg.goodbye /\ is_ingestion ev = false) new.
Proof.
  intros Hl Hs Hq new w'.
  assert (session rt self w = (Ok Next, w')) as Hsession.
  { rewrite (session_unmatched_selection rt self w listing raw rest); try done.
    - unfold w', new, file_prompt_trace, log. cbn.
      repeat (rewrite <- app_assoc; cbn). done.
    - rewrite Hq. apply q_not_displayed. }
  split; [done|]. split; [intros fuel; by apply run_next|].
  unfold new. repeat (apply Forall_cons; split; [by split|]).
  apply Forall_app. split.
  - apply Forall_forall. intros ev. apply displayed_line_not_goodbye.
  - by repeat (apply Forall_cons; split; [by split|]).
Qed.

(** At the end of the input every pass fails at the prompt with [EOFError]
    and the loop goes on. *)
Lemma session_at_end_of_input {X} (rt : Runtime X) {E : Type}
    {iface : EmbeddingInterface X E} (self : AppController (E := E))
    (w : World X) (listing : list str) :
  os_listdir rt (ext w) (current_dir rt) = Ok listing ->
  stdin w = [] ->
  exists w', session rt self w = (Ok Next, w') /\ stdin w' = [] /\ ext w' = ext w.
Proof.
  intros Hl Hs.
  pose proof (choose_file_prompt rt (log (EvPrint Msg.new_session) w)
                listing Hl) as Hc.
  cbn [stdin ext log] in Hc. rewrite Hs in Hc.
  apply (session_body_selecting rt self) in Hc.
  eexists. split; [exact (session_caught rt self w _ _ Hc eq_refl)|]. done.
Qed.

Lemma run_at_end_of_input {X} (rt : Runtime X) {E : Type}
    {iface : EmbeddingInterface X E} (self : AppController (E := E))
    (listing : list str) (fuel : nat) (w : World X) :
  os_listdir rt (ext w) (current_dir rt) = Ok listing ->
  stdin w = [] ->
  fst (run rt self fuel w) = StillRunning.
Proof.
  revert w. induction fuel as [|fuel IH]; intros w Hl Hs; [done|].
  destruct (session_at_end_of_input rt self w listing Hl Hs)
    as (w' & Hsession & Hs' & Hx).
  rewrite (run_next rt self w w' fuel Hsession).
  apply IH; [by rewrite Hx | done].
Qed.

(** A session in which [q] is the only line typed never leaves the loop,
    however many passes it is given. *)
Lemma q_then_end_of_input_never_exits {X} (rt : Runtime X) {E : Type}
    {iface : EmbeddingInterface X E} (self : AppController (E := E))
    (w : World X) (listing : list str) (fuel : nat) :
  os_listdir rt (ext w) (current_dir rt) = Ok listing ->
  stdin w = [Line (lit "q")] ->
  fst (run rt self fuel w) = StillRunning.
Proof.
  intros Hl Hs. destruct fuel as [|fuel]; [done|].
  assert (session rt self w
          = (Ok Next,
             MkWorld []
               (file_prompt_trace rt (log (EvPrint Msg.new_session) w) listing
                ++ [EvPrint (Msg.error_prefix ++ Msg.file_not_found)])
               (ext w))) as Hsession.
  { apply (session_unmatched_selection rt self w listing (lit "q") []);
      try done.
    apply q_not_displayed. }
  rewrite (run_next rt self _ _ fuel Hsession).
  by apply (run_at_end_of_input rt self listing).
Qed.

(** ** [DocumentProcessor.process] *)

Lemma doc_id_inj (i j : nat) : doc_id i = doc_id j -> i = j.
Proof. unfold doc_id. intros H. by apply app_inv_head, of_nat_inj in H. Qed.

Lemma process_unfold {X} (rt : Runtime X) (self : DocumentProcessor)
    (loader : Loader) (w : World X) :
  process rt self loader w
  = match loader_load rt (ext w) loader with
    | Raise e => (Raise e, log (EvLoad loader) w)
    | Ok documents =>
        match split_documents rt (chunk_size self) (chunk_overlap self) documents with
        | Raise e => (Raise e, log (EvLoad loader) w)
        | Ok docs =>
            (Ok (map page_content docs, map metadata docs,
                 map doc_id (seq 0 (length docs))),
             log (EvLoad loader) w)
        end
    end.
Proof.
  unfold process, bind, observe, lift, ret.
  destruct (loader_load rt (ext w) loader) as [documents|e]; [|done].
  destruct (split_documents rt _ _ documents) as [docs|e]; [|done].
  by rewrite length_map.
Qed.

(** C4.  When the document loads and splits into [k] chunks, [process]
    returns the identifiers [doc_0], [doc_1], ..., [doc_(k-1)] in split
    order: [k] of them, the [i]-th being [doc_i], no two alike. *)
Theorem process_ids {X} (rt : Runtime X) (self : DocumentProcessor)
    (loader : Loader) (w : World X) (documents docs : list Document) :
  loader_load rt (ext w) loader = Ok documents ->
  split_documents rt (chunk_size self) (chunk_overlap self) documents = Ok docs ->
  let k := length docs in
  let ids := map (fun i => lit "doc_" ++ of_nat i) (seq 0 k) in
  process rt self loader w
  = (Ok (map page_content docs, map metadata docs, ids), log (EvLoad loader) w)
  /\ length ids = k
  /\ (forall i, i < k -> ids !! i = Some (lit "doc_" ++ of_nat i))
  /\ NoDup ids.
Proof.
  intros Hload Hsplit k ids. split; [|split; [|split]].
  - by rewrite process_unfold, Hload, Hsplit.
  - unfold ids. by rewrite length_map, length_seq.
  - intros i Hi. unfold ids.
    rewrite map_fmap, list_lookup_fmap, lookup_seq_lt by done. done.
  - unfold ids. rewrite map_fmap. apply NoDup_fmap_2.
    + intros i j. apply doc_id_inj.
    + apply NoDup_ListNoDup, List.seq_NoDup.
Qed.

(** C10.  Whatever the loader, the three lists [process] returns have one
    length; with one embedding per text, the four lists handed to
    [add_documents] have one length. *)
Theorem process_lengths {X} (rt : Runtime X) (self : DocumentProcessor)
    (loader : Loader) (w w' : World X) (texts : list str)
    (metadatas : list pyval) (ids : list str) :
  process rt self loader w = (Ok (texts, metadatas, ids), w') ->
  length metadatas = length texts
  /\ length ids = length texts
  /\ forall embeddings : list pyval,
       length embeddings = length texts ->
       length texts = length metadatas
       /\ length metadatas = length ids
       /\ length ids = length embeddings.
Proof.
  rewrite process_unfold.
  destruct (loader_load rt (ext w) loader) as [documents|e]; [|done].
  destruct (split_documents rt _ _ documents) as [docs|e]; [|done].
  intros [= <- <- <- _]. rewrite !length_map, length_seq.
  split; [done|]. split; [done|]. intros embeddings He. by rewrite He.
Qed.

(** ** [JinaAIEmbeddings] *)

Lemma comprehension_Forall2 {A B T} (f : A -> result B) (R : T -> B -> Prop)
    (ts : list T) (l : list A) :
  Forall2 (fun t a => exists b, f a = Ok b /\ R t b) ts l ->
  exists bs, comprehension f l = Ok bs /\ Forall2 R ts bs.
Proof.
  induction 1 as [|t a ts l (b & Hb & HR) _ (bs & Hbs & IH)]; cbn.
  - exists []. by split.
  - exists (b :: bs). rewrite Hb, Hbs. split; [done | by constructor].
Qed.

(** C5.  When the embedding API answers a document request with a success
    status and a body whose ["data"] lists one object per input, the
    [i]-th carrying under ["embedding"] a vector for the [i]-th text,
    [embed_documents] returns exactly those vectors: as many as texts, in
    the order of the texts. *)
Theorem embed_documents_in_order {X} (rt : Runtime X) (self : JinaAIEmbeddings)
    (texts : list str) (w : World X) (resp : response) (x' : X)
    (data : pyval) (items : list pyval) (embeds : str -> pyval -> Prop) :
  requests_post rt (ext w) (documents_request self texts) = (Ok resp, x') ->
  raise_for_status resp = Ok tt ->
  json_body resp = Ok data ->
  subscript_str data (lit "data") = Ok (PList items) ->
  Forall2 (fun t item =>
             exists v, subscript_str item (lit "embedding") = Ok v /\ embeds t v)
          texts items ->
  exists vectors,
    embed_documents (EmbeddingInterface := JinaAIEmbeddings_interface rt)
      self texts w
    = (Ok vectors,
       MkWorld (stdin w) (trace w ++ [EvPost (documents_request self texts)]) x')
    /\ length vectors = length texts
    /\ Forall2 embeds texts vectors.
Proof.
  intros Hpost Hstatus Hjson Hdata Hitems.
  destruct (comprehension_Forall2 _ _ _ _ Hitems) as (vectors & Hc & Hv).
  exists vectors. split; [|split].
  - cbn. unfold Jina_embed_documents, post, bind, call, lift.
    rewrite Hpost, Hstatus, Hjson. unfold embeddings_of. rewrite Hdata. cbn.
    by rewrite Hc.
  - symmetry. by eapply Forall2_length.
  - done.
Qed.

(** ** The inner loop *)

Lemma display_results_stdin {X} (rt : Runtime X) (results : pyval) (w : World X) :
  stdin (snd (display_results rt results w)) = stdin w.
Proof.
  unfold display_results, bind, print, lift. cbn.
  destruct (subscript_str results (lit "documents")) as [documents|e]; [|done].
  destruct (subscript_0 documents) as [first|e]; [|done].
  destruct (iterate first) as [docs|e]; [|done].
  rewrite (for_each_print _
             (fun p => 10%N :: lit "Result " ++ of_nat (fst p + 1) ++ lit ":"
                       ++ 10%N :: format rt (snd p)))
    by (by intros [i doc]).
  done.
Qed.

Lemma Jina_reads_no_input {X} (rt : Runtime X) :
  reads_no_input (iface := JinaAIEmbeddings_interface rt).
Proof.
  intros svc text w. cbn. unfold Jina_embed_query, post, bind, call, lift.
  destruct (requests_post rt (ext w) (query_request svc text)) as [[resp|e] x];
    [|done].
  destruct (raise_for_status resp); [|done].
  destruct (json_body resp); [|done].
  by destruct (first_embedding_of _).
Qed.

Section InnerLoop.

Context {X : Type} (rt : Runtime X) {E : Type} {iface : EmbeddingInterface X E}.
Implicit Types (self : AppController (E := E)) (w : World X).

(** A pass of the inner loop that goes on has read one line. *)
Lemma query_step_reads_line self w w' :
  reads_no_input (iface := iface) ->
  query_step rt self w = (Ok false, w') ->
  exists raw, stdin w = Line raw :: stdin w'.
Proof.
  intros Hsvc. unfold query_step, get_query, bind at 1. unfold bind at 1.
  unfold input. cbn.
  destruct (stdin w) as [|[raw|] rest] eqn:Hs; cbn; [done| |done].
  destruct (is_q rt (strip raw)).
  { unfold bind, print, ret. cbn. done. }
  unfold bind at 1.
  pose proof (Hsvc (embedding_service self) (strip raw)
                (MkWorld rest (trace (log (EvPrompt Msg.ask) w)) (ext w))) as He.
  destruct (embed_query _ _ _) as [[v|e] w1]; [|done]. cbn in He.
  unfold bind at 1. unfold query_documents, query_documents_n, call.
  destruct (collection_query rt (ext w1) [v] 3) as [[results|e] x2]; [|done].
  unfold bind at 1.
  pose proof (display_results_stdin rt results
                (MkWorld (stdin w1) (trace w1 ++ [EvQuery [v] 3]) x2)) as Hd.
  destruct (display_results rt results _) as [[[]|e] w3]; [|done].
  cbn in Hd. unfold ret. intros [= <-]. exists raw. by rewrite Hd, He.
Qed.

(** The inner loop is the loop of the source: a pass, then the loop again
    unless the pass ended in [break] or raised.  The bound on its passes is
    never what ends it. *)
Lemma query_loop_unfold self w :
  reads_no_input (iface := iface) ->
  query_loop rt self w
  = match query_step rt self w with
    | (Ok true, w') => (Ok tt, w')
    | (Ok false, w') => query_loop rt self w'
    | (Raise e, w') => (Raise e, w')
    end.
Proof.
  intros Hsvc. unfold query_loop.
  pose proof (query_step_reads_line self w) as Hline.
  destruct (length (stdin w)) as [|n] eqn:Hn; cbn; unfold bind;
    destruct (query_step rt self w) as [[[|]|e] w']; try done.
  - destruct (Hline w' Hsvc eq_refl) as [raw Hraw]. by rewrite Hraw in Hn.
  - destruct (Hline w' Hsvc eq_refl) as [raw Hraw]. rewrite Hraw in Hn.
    cbn in Hn. by injection Hn as <-.
Qed.

End InnerLoop.

(** ** The program on the concrete surrounding *)

Example demo_table :
  files_dict Demo.rt Demo.x0 Demo.listing0
  = [(lit "2", lit "notes.txt"); (lit "3", lit "paper.PDF")].
Proof. reflexivity. Qed.

Example demo_select_and_ask :
  fst (Demo.passes 1 (Demo.world [Line (lit " 2 "); Line (lit "what?"); Line (lit "Q")]))
  = StillRunning
  /\ Demo.stored (ext (snd (Demo.passes 1 (Demo.world
         [Line (lit " 2 "); Line (lit "what?"); Line (lit "Q")])))) = 1.
Proof. split; reflexivity. Qed.

Lemma choose_file_unmatched_raises_witness :
  choose_file Demo.rt (Demo.world [Line (lit "7")])
  = (Raise (Exn FileNotFoundError Msg.file_not_found),
     MkWorld [] (file_prompt_trace Demo.rt (Demo.world [Line (lit "7")]) Demo.listing0)
       Demo.x0).
Proof.
  apply (choose_file_unmatched_raises Demo.rt (Demo.world [Line (lit "7")])
           Demo.listing0 (lit "7") []).
  - reflexivity.
  - reflexivity.
  - by_computation.
Defined.

(** The numbers count every entry of the listing: of [venv] (a directory),
    [notes.txt] and [paper.PDF], the two regular files are shown as 2 and
    3, not as 1 and 2. *)
Lemma ids_count_directories :
  length (List.filter (is_regular Demo.rt Demo.x0) Demo.listing0) = 2
  /\ displayed_ids Demo.rt Demo.x0 Demo.listing0 = [lit "2"; lit "3"]
  /\ displayed_ids Demo.rt Demo.x0 Demo.listing0
     <> map of_nat
          (seq 1 (length (List.filter (is_regular Demo.rt Demo.x0) Demo.listing0))).
Proof. split; [reflexivity|]. split; [reflexivity|]. vm_compute. discriminate. Qed.

(** C2, as the claim has it, fails in two ways.  Where a directory
    precedes the files the numbers have a gap: of [venv] (a directory),
    [notes.txt] and [paper.PDF] the two files are shown as 2 and 3.  And
    where the program's directory is known by a relative path (a script
    started through [runpy.run_path('app/docs_loader.py')], or by a Python
    before 3.9 as [python app/docs_loader.py]), the path returned is
    relative too. *)
Lemma ids_have_gaps_and_path_is_relative :
  (length (List.filter (is_regular Demo.rt Demo.x0) Demo.listing0) = 2
   /\ displayed_ids Demo.rt Demo.x0 Demo.listing0 = [lit "2"; lit "3"]
   /\ displayed_ids Demo.rt Demo.x0 Demo.listing0
      <> map of_nat
           (seq 1 (length (List.filter (is_regular Demo.rt Demo.x0) Demo.listing0))))
  /\ (fst (choose_file (Demo2.rt_in (lit "app")) (Demo.world [Line (lit "2")]))
      = Ok (lit "app/notes.txt")
      /\ isabs (lit "app/notes.txt") = false).
Proof.
  split.
  - split; [reflexivity|]. split; [reflexivity|]. vm_compute. discriminate.
  - split; reflexivity.
Qed.

Lemma choose_file_table_witness :
  (choose_file Demo.rt (Demo.world [Line (lit " 2 ")])
   = (Ok (lit "/srv/app/notes.txt"),
      MkWorld [] (file_prompt_trace Demo.rt (Demo.world [Line (lit " 2 ")]) Demo.listing0)
        Demo.x0)
   /\ isabs (lit "/srv/app/notes.txt") = true)
  /\ displayed_ids Demo.rt Demo.x1 Demo.listing1 = [lit "1"; lit "2"]
  /\ displayed_ids Demo.rt Demo2.x_files_first
       (map fst (Demo.entries Demo2.x_files_first))
     = [lit "1"; lit "2"].
Proof.
  split; [|split].
  - destruct (choose_file_table Demo.rt (Demo.world [Line (lit " 2 ")])
                Demo.listing0 eq_refl) as (_ & _ & _ & _ & _ & Hsel).
    destruct (Hsel 1 (lit "notes.txt") (lit " 2 ") [] eq_refl eq_refl eq_refl
                eq_refl ltac:(discriminate)) as [Hc Habs].
    split; [exact Hc | exact (Habs eq_refl)].
  - destruct (choose_file_table Demo.rt (Demo.world1 []) Demo.listing1 eq_refl)
      as (_ & _ & _ & _ & Hall & _).
    apply Hall. intros f Hf.
    repeat (apply elem_of_cons in Hf as [->|Hf]; [reflexivity|]).
    by apply elem_of_nil in Hf.
  - destruct (choose_file_table Demo.rt (MkWorld [] [] Demo2.x_files_first)
                (map fst (Demo.entries Demo2.x_files_first)) eq_refl)
      as (_ & _ & _ & Hiff & _).
    apply Hiff. by repeat constructor.
Defined.

Lemma q_at_file_prompt_continues_witness :
  fst (Demo.pass (Demo.world [Line (lit "q")])) = Ok Next
  /\ forall fuel,
       fst (Demo.passes (S fuel) (Demo.world [Line (lit "q")]))
       = fst (Demo.passes fuel
                (snd (Demo.pass (Demo.world [Line (lit "q")])))).
Proof.
  destruct (q_at_file_prompt_continues Demo.rt (iface := Demo.iface) Demo.app
              (Demo.world [Line (lit "q")]) Demo.listing0 (lit "q") []
              eq_refl eq_refl eq_refl) as (Hs & Hr & _).
  split.
  - unfold Demo.pass. by rewrite Hs.
  - intros fuel. unfold Demo.passes, Demo.pass. by rewrite Hr, Hs.
Defined.

(** Ctrl-C pressed at the file prompt raises [KeyboardInterrupt] inside
    the pass, which the loop does not catch; [run] ends with it. *)
Lemma ctrl_c_is_not_caught :
  ~ (forall st e w',
       raised_during Demo.rt (iface := Demo.iface) Demo.app (Demo.world [CtrlC])
         st e w' ->
       exists w'', Demo.pass (Demo.world [CtrlC]) = (Ok Next, w'')).
Proof.
  intros H.
  destruct (H Selecting (Exn KeyboardInterrupt [])
              (snd (choose_file Demo.rt
                      (log (EvPrint Msg.new_session) (Demo.world [CtrlC])))))
    as [w'' Hs].
  - by apply raised_selecting.
  - vm_compute in Hs. discriminate Hs.
Qed.

Example ctrl_c_ends_run :
  fst (Demo.passes 1 (Demo.world [CtrlC])) = Uncaught (Exn KeyboardInterrupt []).
Proof. reflexivity. Qed.

Lemma process_ids_witness :
  fst (process Demo.rt DocumentProcessor_init
         (TextLoader (lit "/srv/app/notes.txt") (lit "utf8")) (Demo.world []))
  = Ok ([lit "hello world"], [PDict []], [lit "doc_0"]).
Proof.
  destruct (process_ids Demo.rt DocumentProcessor_init
              (TextLoader (lit "/srv/app/notes.txt") (lit "utf8")) (Demo.world [])
              _ _ eq_refl eq_refl) as [Hp _].
  by rewrite Hp.
Defined.

Lemma process_lengths_witness :
  length [PDict []] = length [lit "hello world"]
  /\ length [lit "doc_0"] = length [lit "hello world"].
Proof.
  destruct (process_lengths Demo.rt DocumentProcessor_init
              (TextLoader (lit "/srv/app/notes.txt") (lit "utf8")) (Demo.world [])
              _ [lit "hello world"] [PDict []] [lit "doc_0"] eq_refl)
    as (Hm & Hi & _).
  by split.
Defined.

Lemma embed_documents_in_order_witness :
  exists vectors,
    fst (embed_documents (EmbeddingInterface := Demo.iface)
           (JinaAIEmbeddings_init (lit "secret")) [lit "ab"; lit "c"] (Demo.world []))
    = Ok vectors
    /\ length vectors = 2
    /\ Forall2 (fun t v => v = PList [PInt (Z.of_nat (length t))])
         [lit "ab"; lit "c"] vectors.
Proof.
  destruct (embed_documents_in_order Demo.rt (JinaAIEmbeddings_init (lit "secret"))
              [lit "ab"; lit "c"] (Demo.world []) _ _ _ _
              (fun t v => v = PList [PInt (Z.of_nat (length t))])
              eq_refl eq_refl eq_refl eq_refl)
    as (vectors & He & Hlen & Hord).
  - repeat constructor; eexists; split; reflexivity.
  - exists vectors. unfold Demo.iface. rewrite He. by repeat split.
Defined.

(** ** What the program leaves to its libraries *)

(** [query_documents] hands the query to the collection with [n_results=3]
    and returns the collection's answer as it is. *)
Lemma query_documents_forwards {X} (rt : Runtime X) (q : pyval) (w : World X) :
  query_documents rt q w
  = (fst (collection_query rt (ext w) [q] 3),
     MkWorld (stdin w) (trace w ++ [EvQuery [q] 3])
       (snd (collection_query rt (ext w) [q] 3))).
Proof.
  unfold query_documents, query_documents_n, call.
  by destruct (collection_query rt (ext w) [q] 3).
Qed.

(** The splitter is configured with the defaults of the source. *)
Example splitter_defaults :
  chunk_size DocumentProcessor_init = 512 /\ chunk_overlap DocumentProcessor_init = 50.
Proof. split; reflexivity. Qed.

(** * Further properties of the code *)

(** ** The embedding client *)

Lemma comprehension_Ok {A B} (f : A -> result B) (l : list A) (bs : list B) :
  comprehension f l = Ok bs <-> Forall2 (fun a b => f a = Ok b) l bs.
Proof.
  revert bs. induction l as [|a l IH]; intros bs; cbn.
  - split; [intros [= <-]; constructor | by inversion 1].
  - destruct (f a) as [b|e] eqn:Ha.
    + destruct (comprehension f l) as [bs'|e] eqn:Hc.
      * split.
        -- intros [= <-]. constructor; [done | by apply IH].
        -- inversion 1 as [|? b' ? bs'' Hb Hbs]; subst.
           apply IH in Hbs. congruence.
      * split; [done|]. inversion 1 as [|? b' ? bs'' Hb Hbs]; subst.
        by apply IH in Hbs.
    + split; [done|]. inversion 1; congruence.
Qed.

(** The first item that fails ends a comprehension with its exception. *)
Lemma comprehension_first_failure {A B} (f : A -> result B)
    (good : list A) (bad : A) (rest : list A) (e : exn) :
  Forall (fun a => is_Ok (f a) = true) good ->
  f bad = Raise e ->
  comprehension f (good ++ bad :: rest) = Raise e.
Proof.
  intros Hgood Hbad. induction Hgood as [|a good Ha _ IH]; cbn.
  - by rewrite Hbad.
  - destruct (f a); [|done]. by rewrite IH.
Qed.

(** X1.  Each call of the embedding client sends exactly one request,
    whether it then returns or raises: [embed_documents] one for all the
    texts with task [retrieval.passage], [embed_query] one for the single
    text with task [retrieval.query].  Nothing else happens to the world:
    no input is read and the outside is left as the request left it. *)
Theorem jina_one_request_per_call {X} (rt : Runtime X) (self : JinaAIEmbeddings)
    (w : World X) :
  (forall texts : list str,
      let req := documents_request self texts in
      snd (Jina_embed_documents rt self texts w)
      = MkWorld (stdin w) (trace w ++ [EvPost req])
          (snd (requests_post rt (ext w) req))
      /\ req_task req = lit "retrieval.passage" /\ req_input req = texts)
  /\ (forall text : str,
        let req := query_request self text in
        snd (Jina_embed_query rt self text w)
        = MkWorld (stdin w) (trace w ++ [EvPost req])
            (snd (requests_post rt (ext w) req))
        /\ req_task req = lit "retrieval.query" /\ req_input req = [text]).
Proof.
  split.
  - intros texts req. split; [|done].
    unfold Jina_embed_documents, post, bind, call, lift. fold req.
    destruct (requests_post rt (ext w) req) as [[resp|e] x]; [|done].
    destruct (raise_for_status resp); [|done].
    destruct (json_body resp); [|done].
    by destruct (embeddings_of _).
  - intros text req. split; [|done].
    unfold Jina_embed_query, post, bind, call, lift. fold req.
    destruct (requests_post rt (ext w) req) as [[resp|e] x]; [|done].
    destruct (raise_for_status resp); [|done].
    destruct (json_body resp); [|done].
    by destruct (first_embedding_of _).
Qed.

(** X2.  A response with a status from 400 to 599 makes both calls of the
    embedding client raise [HTTPError] with the text of that response; the
    body is not looked at. *)
Theorem jina_error_status_raises {X} (rt : Runtime X) (self : JinaAIEmbeddings)
    (w : World X) (resp : response) :
  400 <= status_code resp < 600 ->
  (forall (texts : list str) (x' : X),
      requests_post rt (ext w) (documents_request self texts) = (Ok resp, x') ->
      Jina_embed_documents rt self texts w
      = (Raise (Exn HTTPError (http_error_text resp)),
         MkWorld (stdin w) (trace w ++ [EvPost (documents_request self texts)]) x'))
  /\ (forall (text : str) (x' : X),
        requests_post rt (ext w) (query_request self text) = (Ok resp, x') ->
        Jina_embed_query rt self text w
        = (Raise (Exn HTTPError (http_error_text resp)),
           MkWorld (stdin w) (trace w ++ [EvPost (query_request self text)]) x')).
Proof.
  intros [Hlo Hhi].
  assert (raise_for_status resp = Raise (Exn HTTPError (http_error_text resp)))
    as Hstatus.
  { unfold raise_for_status.
    apply Nat.leb_le in Hlo. apply Nat.ltb_lt in Hhi. by rewrite Hlo, Hhi. }
  split.
  - intros texts x' Hpost.
    unfold Jina_embed_documents, post, bind, call, lift.
    by rewrite Hpost, Hstatus.
  - intros text x' Hpost.
    unfold Jina_embed_query, post, bind, call, lift.
    by rewrite Hpost, Hstatus.
Qed.

Lemma jina_error_status_raises_witness :
  fst (Jina_embed_documents (Variant.rt_of (Variant.answering 404 (Ok PNone)))
         Variant.svc [lit "a"; lit "b"] (Demo.world []))
  = Raise (Exn HTTPError (lit "Client Error"))
  /\ fst (Jina_embed_query (Variant.rt_of (Variant.answering 404 (Ok PNone)))
            Variant.svc (lit "a") (Demo.world []))
     = Raise (Exn HTTPError (lit "Client Error")).
Proof.
  destruct (jina_error_status_raises
              (Variant.rt_of (Variant.answering 404 (Ok PNone))) Variant.svc
              (Demo.world [])
              {| status_code := 404; http_error_text := lit "Client Error";
                 json_body := Ok PNone |}) as [Hd Hq].
  - cbn. lia.
  - split.
    + by rewrite (Hd [lit "a"; lit "b"] Demo.x0 eq_refl).
    + by rewrite (Hq (lit "a") Demo.x0 eq_refl).
Defined.

(** X3.  [embed_documents] returns one vector per object of the response's
    ["data"] list, in the order of that list.  The number of texts sent
    plays no part: a response with fewer or more objects than texts is
    returned as it is, without an error. *)
Theorem embed_documents_follows_response {X} (rt : Runtime X)
    (self : JinaAIEmbeddings) (texts : list str) (w : World X) (resp : response)
    (x' : X) (data : pyval) (items vectors : list pyval) :
  requests_post rt (ext w) (documents_request self texts) = (Ok resp, x') ->
  raise_for_status resp = Ok tt ->
  json_body resp = Ok data ->
  subscript_str data (lit "data") = Ok (PList items) ->
  Forall2 (fun item v => subscript_str item (lit "embedding") = Ok v) items vectors ->
  Jina_embed_documents rt self texts w
  = (Ok vectors,
     MkWorld (stdin w) (trace w ++ [EvPost (documents_request self texts)]) x')
  /\ length vectors = length items.
Proof.
  intros Hpost Hstatus Hjson Hdata Hitems. split.
  - unfold Jina_embed_documents, post, bind, call, lift.
    rewrite Hpost, Hstatus, Hjson. unfold embeddings_of. rewrite Hdata. cbn.
    apply comprehension_Ok in Hitems. by rewrite Hitems.
  - symmetry. by eapply Forall2_length.
Qed.

Lemma embed_documents_follows_response_witness :
  exists vectors,
    fst (Jina_embed_documents
           (Variant.rt_of (Variant.answering 200
              (Ok (PDict [(lit "data", PList [Demo.embedding_item (lit "only")])]))))
           Variant.svc [lit "a"; lit "b"; lit "c"] (Demo.world []))
    = Ok vectors
    /\ length vectors = 1.
Proof.
  exists [PList [PInt 4]].
  destruct (embed_documents_follows_response
              (Variant.rt_of (Variant.answering 200
                 (Ok (PDict [(lit "data", PList [Demo.embedding_item (lit "only")])]))))
              Variant.svc [lit "a"; lit "b"; lit "c"] (Demo.world []) _ _ _
              [Demo.embedding_item (lit "only")] [PList [PInt 4]]
              eq_refl eq_refl eq_refl eq_refl) as [He Hlen].
  - by repeat constructor.
  - by rewrite He.
Defined.

(** X4.  A malformed body makes [embed_documents] raise: a JSON object
    without ["data"] gives [KeyError] 'data', and the first object of the
    list without ["embedding"] gives [KeyError] 'embedding', whatever comes
    after it. *)
Theorem embed_documents_malformed_body {X} (rt : Runtime X)
    (self : JinaAIEmbeddings) (texts : list str) (w : World X) (resp : response)
    (x' : X) :
  requests_post rt (ext w) (documents_request self texts) = (Ok resp, x') ->
  raise_for_status resp = Ok tt ->
  let w' := MkWorld (stdin w) (trace w ++ [EvPost (documents_request self texts)]) x' in
  (forall d : list (str * pyval),
      json_body resp = Ok (PDict d) ->
      dict_get (lit "data") d = None ->
      Jina_embed_documents rt self texts w
      = (Raise (Exn KeyError (lit "'data'")), w'))
  /\ (forall (d bad : list (str * pyval)) (good rest : list pyval),
        json_body resp = Ok (PDict d) ->
        dict_get (lit "data") d = Some (PList (good ++ PDict bad :: rest)) ->
        Forall (fun item => is_Ok (subscript_str item (lit "embedding")) = true) good ->
        dict_get (lit "embedding") bad = None ->
        Jina_embed_documents rt self texts w
        = (Raise (Exn KeyError (lit "'embedding'")), w')).
Proof.
  intros Hpost Hstatus w'. split.
  - intros d Hjson Hd.
    unfold Jina_embed_documents, post, bind, call, lift.
    rewrite Hpost, Hstatus, Hjson. unfold embeddings_of. cbn. by rewrite Hd.
  - intros d bad good rest Hjson Hd Hgood Hbad.
    unfold Jina_embed_documents, post, bind, call, lift.
    rewrite Hpost, Hstatus, Hjson. unfold embeddings_of. cbn. rewrite Hd. cbn.
    rewrite (comprehension_first_failure _ good (PDict bad) rest
               (Exn KeyError (lit "'embedding'"))); [done | done |].
    cbn. by rewrite Hbad.
Qed.

Lemma embed_documents_malformed_body_witness :
  fst (Jina_embed_documents
         (Variant.rt_of (Variant.answering 200 (Ok (PDict [(lit "detail", PNone)]))))
         Variant.svc [lit "a"] (Demo.world []))
  = Raise (Exn KeyError (lit "'data'"))
  /\ fst (Jina_embed_documents
            (Variant.rt_of (Variant.answering 200
               (Ok (PDict [(lit "data",
                            PList [Demo.embedding_item (lit "a"); PDict []; PNone])]))))
            Variant.svc [lit "a"; lit "b"; lit "c"] (Demo.world []))
     = Raise (Exn KeyError (lit "'embedding'")).
Proof.
  split.
  - destruct (embed_documents_malformed_body
                (Variant.rt_of (Variant.answering 200 (Ok (PDict [(lit "detail", PNone)]))))
                Variant.svc [lit "a"] (Demo.world []) _ _ eq_refl eq_refl)
      as [Hdata _].
    by rewrite (Hdata [(lit "detail", PNone)] eq_refl eq_refl).
  - destruct (embed_documents_malformed_body
                (Variant.rt_of (Variant.answering 200
                   (Ok (PDict [(lit "data",
                                PList [Demo.embedding_item (lit "a"); PDict []; PNone])]))))
                Variant.svc [lit "a"; lit "b"; lit "c"] (Demo.world []) _ _
                eq_refl eq_refl) as [_ Hitem].
    rewrite (Hitem _ [] [Demo.embedding_item (lit "a")] [PNone] eq_refl eq_refl);
      [done | by repeat constructor | done].
Defined.

(** X5.  [embed_query] returns the embedding of the first object of the
    response's ["data"] list and ignores the rest of the list; an empty
    list makes it raise [IndexError]. *)
Theorem embed_query_first_item {X} (rt : Runtime X) (self : JinaAIEmbeddings)
    (text : str) (w : World X) (resp : response) (x' : X) (data : pyval) :
  requests_post rt (ext w) (query_request self text) = (Ok resp, x') ->
  raise_for_status resp = Ok tt ->
  json_body resp = Ok data ->
  let w' := MkWorld (stdin w) (trace w ++ [EvPost (query_request self text)]) x' in
  (forall (item v : pyval) (rest : list pyval),
      subscript_str data (lit "data") = Ok (PList (item :: rest)) ->
      subscript_str item (lit "embedding") = Ok v ->
      Jina_embed_query rt self text w = (Ok v, w'))
  /\ (subscript_str data (lit "data") = Ok (PList []) ->
      Jina_embed_query rt self text w
      = (Raise (Exn IndexError (lit "list index out of range")), w')).
Proof.
  intros Hpost Hstatus Hjson w'. split.
  - intros item v rest Hdata Hitem.
    unfold Jina_embed_query, post, bind, call, lift.
    rewrite Hpost, Hstatus, Hjson. unfold first_embedding_of. rewrite Hdata.
    cbn. by rewrite Hitem.
  - intros Hdata.
    unfold Jina_embed_query, post, bind, call, lift.
    rewrite Hpost, Hstatus, Hjson. unfold first_embedding_of. by rewrite Hdata.
Qed.

Lemma embed_query_first_item_witness :
  fst (Jina_embed_query
         (Variant.rt_of (Variant.answering 200
            (Ok (PDict [(lit "data", PList [Demo.embedding_item (lit "ab"); PNone])]))))
         Variant.svc (lit "ab") (Demo.world []))
  = Ok (PList [PInt 2])
  /\ fst (Jina_embed_query
            (Variant.rt_of (Variant.answering 200 (Ok (PDict [(lit "data", PList [])]))))
            Variant.svc (lit "ab") (Demo.world []))
     = Raise (Exn IndexError (lit "list index out of range")).
Proof.
  split.
  - destruct (embed_query_first_item
                (Variant.rt_of (Variant.answering 200
                   (Ok (PDict [(lit "data", PList [Demo.embedding_item (lit "ab"); PNone])]))))
                Variant.svc (lit "ab") (Demo.world []) _ _ _ eq_refl eq_refl eq_refl)
      as [Hfirst _].
    by rewrite (Hfirst _ (PList [PInt 2]) [PNone] eq_refl eq_refl).
  - destruct (embed_query_first_item
                (Variant.rt_of (Variant.answering 200 (Ok (PDict [(lit "data", PList [])]))))
                Variant.svc (lit "ab") (Demo.world []) _ _ _ eq_refl eq_refl eq_refl)
      as [_ Hempty].
    by rewrite (Hempty eq_refl).
Defined.

(** X6.  The two readings of a response body agree: where the reading of
    [embed_documents] gives a non-empty list of vectors, the reading of
    [embed_query] gives its first vector; where it gives the empty list,
    the reading of [embed_query] raises. *)
Theorem first_embedding_is_head (data : pyval) (vectors : list pyval) :
  embeddings_of data = Ok vectors ->
  match vectors with
  | v :: _ => first_embedding_of data = Ok v
  | [] => is_Ok (first_embedding_of data) = false
  end.
Proof.
  unfold embeddings_of, first_embedding_of.
  destruct (subscript_str data (lit "data")) as [items|e]; [|done].
  destruct items as [| | | |s|l|d]; try done; cbn.
  - destruct s as [|c s]; cbn; [by intros [= <-]|]. done.
  - destruct l as [|item l]; cbn; [by intros [= <-]|].
    destruct (subscript_str item (lit "embedding")) as [v|e]; [|done].
    destruct (comprehension _ l); [|done]. by intros [= <-].
  - destruct d as [|[k v] d]; cbn; [by intros [= <-]|]. done.
Qed.

Lemma first_embedding_is_head_witness :
  first_embedding_of
    (PDict [(lit "data", PList [Demo.embedding_item (lit "ab"); Demo.embedding_item (lit "c")])])
  = Ok (PList [PInt 2]).
Proof.
  exact (first_embedding_is_head
           (PDict [(lit "data",
                    PList [Demo.embedding_item (lit "ab"); Demo.embedding_item (lit "c")])])
           [PList [PInt 2]; PList [PInt 1]] eq_refl).
Defined.

(** ** The document processor *)

(** X7.  What [process] returns is aligned with the chunks of the splitter:
    the [i]-th text and the [i]-th metadata are those of the [i]-th chunk
    and the [i]-th id is [doc_i]; it returns only when both the loader and
    the splitter returned, having loaded once; a document that splits into
    no chunk gives three empty lists. *)
Theorem process_aligned {X} (rt : Runtime X) (self : DocumentProcessor)
    (loader : Loader) (w w' : World X) (texts : list str)
    (metadatas : list pyval) (ids : list str) :
  process rt self loader w = (Ok (texts, metadatas, ids), w') ->
  exists documents docs,
    loader_load rt (ext w) loader = Ok documents
    /\ split_documents rt (chunk_size self) (chunk_overlap self) documents = Ok docs
    /\ w' = log (EvLoad loader) w
    /\ (forall i d, docs !! i = Some d ->
          texts !! i = Some (page_content d)
          /\ metadatas !! i = Some (metadata d)
          /\ ids !! i = Some (lit "doc_" ++ of_nat i))
    /\ (docs = [] -> texts = [] /\ metadatas = [] /\ ids = []).
Proof.
  rewrite process_unfold.
  destruct (loader_load rt (ext w) loader) as [documents|e] eqn:Hload; [|done].
  destruct (split_documents rt _ _ documents) as [docs|e] eqn:Hsplit; [|done].
  intros [= <- <- <- <-]. exists documents, docs.
  split; [done|]. split; [done|]. split; [done|]. split.
  - intros i d Hd. rewrite !map_fmap, !list_lookup_fmap, Hd.
    split; [done|]. split; [done|].
    rewrite lookup_seq_lt; [done|]. by eapply lookup_lt_Some.
  - by intros ->.
Qed.

Lemma process_aligned_witness :
  exists documents docs,
    loader_load (Variant.rt_of Variant.fine) Demo.x0
      (TextLoader (lit "/srv/app/notes.txt") (lit "utf8")) = Ok documents
    /\ docs = Variant.two_chunks.
Proof.
  destruct (process_aligned (Variant.rt_of Variant.fine) DocumentProcessor_init
              (TextLoader (lit "/srv/app/notes.txt") (lit "utf8")) (Demo.world []) _
              [lit "first part"; lit "second part"]
              [PDict [(lit "page", PInt 0)]; PDict [(lit "page", PInt 1)]]
              [lit "doc_0"; lit "doc_1"] eq_refl)
    as (documents & docs & Hload & Hsplit & _).
  exists documents, docs. split; [exact Hload|].
  cbn in Hload, Hsplit. congruence.
Defined.



(** ** Trimming *)

Lemma lstrip_head (s : str) (c : char) :
  head (lstrip s) = Some c -> isspace c = false.
Proof.
  induction s as [|a s IH]; cbn; [done|].
  destruct (isspace a) eqn:Ha; [done|]. cbn. by intros [= <-].
Qed.

Lemma lstrip_suffix (s : str) : exists pre, s = pre ++ lstrip s.
Proof.
  induction s as [|a s [pre IH]]; cbn; [by exists []|].
  destruct (isspace a).
  - exists (a :: pre). cbn. by rewrite <- IH.
  - by exists [].
Qed.

Lemma lstrip_fixed (s : str) :
  (forall c, head s = Some c -> isspace c = false) -> lstrip s = s.
Proof.
  destruct s as [|a s]; cbn; [done|]. intros H. by rewrite (H a eq_refl).
Qed.

Lemma last_rev {A} (l : list A) : last (rev l) = head l.
Proof. destruct l as [|a l]; cbn; [done|]. apply last_snoc. Qed.

Lemma head_rev {A} (l : list A) : head (rev l) = last l.
Proof. rewrite <- (rev_involutive l) at 2. by rewrite last_rev. Qed.

Lemma rstrip_prefix (s : str) : exists suf, s = rstrip s ++ suf.
Proof.
  unfold rstrip. destruct (lstrip_suffix (rev s)) as [pre H].
  exists (rev pre). rewrite <- rev_app_distr, <- H. by rewrite rev_involutive.
Qed.

Lemma rstrip_last (s : str) (c : char) :
  last (rstrip s) = Some c -> isspace c = false.
Proof. unfold rstrip. rewrite last_rev. apply lstrip_head. Qed.

Lemma rstrip_fixed (s : str) :
  (forall c, last s = Some c -> isspace c = false) -> rstrip s = s.
Proof.
  intros H. unfold rstrip. rewrite lstrip_fixed; [apply rev_involutive|].
  intros c. rewrite head_rev. apply H.
Qed.

Lemma strip_head (s : str) (c : char) :
  head (strip s) = Some c -> isspace c = false.
Proof.
  unfold strip. destruct (rstrip_prefix (lstrip s)) as [suf H].
  intros Hc. apply (lstrip_head s). rewrite H.
  by destruct (rstrip (lstrip s)).
Qed.

Lemma strip_last (s : str) (c : char) :
  last (strip s) = Some c -> isspace c = false.
Proof. apply rstrip_last. Qed.

Lemma strip_idempotent (s : str) : strip (strip s) = strip s.
Proof.
  unfold strip at 1. rewrite (lstrip_fixed (strip s)) by apply strip_head.
  apply rstrip_fixed, strip_last.
Qed.

(** A character that is no whitespace survives trimming. *)
Lemma lstrip_keeps (s : str) (c : char) :
  c ∈ s -> isspace c = false -> c ∈ lstrip s.
Proof.
  induction s as [|a s IH]; cbn; [done|]. intros Hin Hc.
  destruct (isspace a) eqn:Ha; [|done].
  apply elem_of_cons in Hin as [->|Hin]; [congruence | by apply IH].
Qed.

Lemma strip_keeps (s : str) (c : char) :
  c ∈ s -> isspace c = false -> c ∈ strip s.
Proof.
  intros Hin Hc. unfold strip, rstrip.
  apply list_elem_of_In. rewrite <- in_rev. apply list_elem_of_In.
  apply lstrip_keeps; [|done].
  apply list_elem_of_In. rewrite <- in_rev. apply list_elem_of_In.
  by apply lstrip_keeps.
Qed.

(** ** The console interface *)

(** X9.  [choose_file] returns a path only for a file it has shown: the
    directory was listed, a line was read whose trimmed text is the shown
    number of a regular file of the listing, and the path is that file's
    name joined to the program's directory. *)
Theorem choose_file_returns_listed_file {X} (rt : Runtime X) (w w' : World X)
    (path : str) :
  choose_file rt w = (Ok path, w') ->
  exists listing raw rest i name,
    os_listdir rt (ext w) (current_dir rt) = Ok listing
    /\ stdin w = Line raw :: rest
    /\ strip raw = of_nat (i + 1)
    /\ listing !! i = Some name
    /\ is_regular rt (ext w) name = true
    /\ path = path_join (current_dir rt) name
    /\ w' = MkWorld rest (file_prompt_trace rt w listing) (ext w).
Proof.
  destruct (os_listdir rt (ext w) (current_dir rt)) as [listing|e] eqn:Hl.
  2:{ by rewrite (choose_file_listdir_raises rt w e Hl). }
  rewrite (choose_file_prompt rt w listing Hl).
  destruct (stdin w) as [|[raw|] rest] eqn:Hs; [done| |done].
  unfold selection.
  destruct (dict_get (strip raw) (files_dict rt (ext w) listing))
    as [[|c name]|] eqn:Hget; [done| |done].
  intros [= <- <-].
  apply files_dict_get in Hget as (i & Hi & Hname & Hreg).
  by exists listing, raw, rest, i, (c :: name).
Qed.

Lemma choose_file_returns_listed_file_witness :
  exists i name,
    strip (lit " 3") = of_nat (i + 1)
    /\ Demo.listing0 !! i = Some name
    /\ lit "/srv/app/paper.PDF" = path_join Demo.dir name.
Proof.
  destruct (choose_file_returns_listed_file Demo.rt (Demo.world [Line (lit " 3")]) _
              (lit "/srv/app/paper.PDF") eq_refl)
    as (listing & raw & rest & i & name & Hl & Hs & Hraw & Hname & _ & Hpath & _).
  cbn in Hl, Hs. injection Hl as <-. injection Hs as <- _.
  by exists i, name.
Defined.

(** X10.  When the program's directory cannot be listed, a pass prints the
    banner and the error and reads nothing; the next pass does the same.
    The loop then spins without ever reading the input: after any number
    of passes it is still running, the input untouched. *)
Theorem unlistable_directory_spins {X} (rt : Runtime X) {E : Type}
    {iface : EmbeddingInterface X E} (self : AppController (E := E))
    (e : exn) (fuel : nat) (w : World X) :
  os_listdir rt (ext w) (current_dir rt) = Raise e ->
  is_Exception (exn_cls e) = true ->
  run rt self fuel w
  = (StillRunning,
     MkWorld (stdin w)
       (trace w ++ concat (replicate fuel (unlistable_pass rt e))) (ext w)).
Proof.
  intros Hl He. revert w Hl.
  induction fuel as [|fuel IH]; intros [inp tr x] Hl; cbn in Hl.
  - cbn. by rewrite app_nil_r.
  - pose proof (choose_file_listdir_raises rt
                  (log (EvPrint Msg.new_session) (MkWorld inp tr x)) e Hl) as Hc.
    apply (session_body_selecting rt self) in Hc.
    rewrite (run_next rt self _ _ fuel (session_caught rt self _ _ _ Hc He)).
    rewrite IH by done. cbn. unfold unlistable_pass.
    by repeat (rewrite <- app_assoc; cbn).
Qed.

Lemma unlistable_directory_spins_witness :
  fst (run (Variant.rt_of (Variant.unlistable
              (Exn (OtherException (lit "PermissionError")) (lit "Permission denied"))))
         (iface := Demo.iface) Demo.app 5 (Demo.world [Line (lit "2")]))
  = StillRunning.
Proof.
  by rewrite (unlistable_directory_spins
                (Variant.rt_of (Variant.unlistable
                   (Exn (OtherException (lit "PermissionError")) (lit "Permission denied"))))
                (iface := Demo.iface) Demo.app
                (Exn (OtherException (lit "PermissionError")) (lit "Permission denied"))
                5 (Demo.world [Line (lit "2")]) eq_refl eq_refl).
Defined.

(** X11.  [get_query] reads one line and returns it trimmed: the text it
    returns neither starts nor ends with whitespace, and trimming it again
    changes nothing.  At the end of the input it raises [EOFError]. *)
Theorem get_query_trimmed {X} (rt : Runtime X) (w : World X) :
  (forall raw rest,
      stdin w = Line raw :: rest ->
      get_query w
      = (Ok (strip raw), MkWorld rest (trace w ++ [EvPrompt Msg.ask]) (ext w))
      /\ (forall c, head (strip raw) = Some c -> isspace c = false)
      /\ (forall c, last (strip raw) = Some c -> isspace c = false)
      /\ strip (strip raw) = strip raw)
  /\ (stdin w = [] ->
      get_query w
      = (Raise (Exn EOFError (lit "EOF when reading a line")),
         MkWorld [] (trace w ++ [EvPrompt Msg.ask]) (ext w))).
Proof.
  split.
  - intros raw rest Hs. split; [|split; [|split]].
    + unfold get_query, bind, input, ret. cbn. by rewrite Hs.
    + apply strip_head.
    + apply strip_last.
    + apply strip_idempotent.
  - intros Hs. unfold get_query, bind, input. cbn. rewrite Hs.
    unfold log. by rewrite Hs.
Qed.

Lemma get_query_trimmed_witness :
  fst (get_query (Demo.world [Line (lit "  what is it?  ")])) = Ok (lit "what is it?").
Proof.
  destruct (get_query_trimmed Demo.rt (Demo.world [Line (lit "  what is it?  ")]))
    as [Hline _].
  destruct (Hline (lit "  what is it?  ") [] eq_refl) as [Hq _].
  by rewrite Hq.
Defined.

Lemma enumerate_from_lookup {A} (l : list A) (s i : nat) (a : A) :
  l !! i = Some a -> combine (seq s (length l)) l !! i = Some (s + i, a).
Proof.
  revert s i. induction l as [|b l IH]; intros s i; [done|].
  destruct i as [|i]; simpl.
  - intros [= ->]. by rewrite Nat.add_0_r.
  - intros H. rewrite (IH (S s) i H). f_equal. f_equal. lia.
Qed.

Lemma enumerate_lookup_0 {A} (l : list A) (i : nat) (a : A) :
  l !! i = Some a -> enumerate l !! i = Some (i, a).
Proof. apply (enumerate_from_lookup l 0). Qed.

(** X12.  For a result whose ["documents"] holds a list of lists,
    [display_results] prints the heading and then one line per document
    of the first list, in order, the line of the [i]-th document (from 0)
    headed [Result i+1]; further lists are not shown, and an empty first
    list leaves the heading alone. *)
Theorem display_results_lines {X} (rt : Runtime X) (w : World X)
    (d : list (str * pyval)) (docs : list pyval) (others : list pyval) :
  dict_get (lit "documents") d = Some (PList (PList docs :: others)) ->
  display_results rt (PDict d) w
  = (Ok tt,
     MkWorld (stdin w) (trace w ++ EvPrint Msg.top_results :: result_lines rt docs)
       (ext w))
  /\ length (result_lines rt docs) = length docs
  /\ (forall i doc, docs !! i = Some doc ->
        result_lines rt docs !! i
        = Some (EvPrint (10%N :: lit "Result " ++ of_nat (i + 1) ++ lit ":"
                         ++ 10%N :: format rt doc))).
Proof.
  intros Hd. split; [|split].
  - unfold display_results, bind at 1, print at 1.
    unfold bind at 1, lift at 1. cbn. rewrite Hd. cbn.
    rewrite (for_each_print _ (result_line rt)) by (by intros [i doc]).
    cbn. unfold result_lines. by rewrite <- app_assoc.
  - unfold result_lines, enumerate.
    rewrite length_map, length_combine, length_seq. lia.
  - intros i doc Hi. unfold result_lines.
    by rewrite map_fmap, list_lookup_fmap, (enumerate_lookup_0 docs i doc Hi).
Qed.

Lemma display_results_lines_witness :
  snd (display_results Demo.rt Variant.two_results (Demo.world []))
  = MkWorld []
      [EvPrint Msg.top_results;
       EvPrint (10%N :: lit "Result 1:" ++ 10%N :: lit "first part");
       EvPrint (10%N :: lit "Result 2:" ++ 10%N :: lit "second part")]
      Demo.x0.
Proof.
  destruct (display_results_lines Demo.rt (Demo.world [])
              [(lit "documents",
                PList [PList [PStr (lit "first part"); PStr (lit "second part")]])]
              [PStr (lit "first part"); PStr (lit "second part")] [] eq_refl)
    as [Hd _].
  unfold Variant.two_results. by rewrite Hd.
Defined.

(** X13.  For a result it cannot read, [display_results] has already
    printed the heading when it raises: [KeyError] when the result has no
    ["documents"], [TypeError] when ["documents"] is [None], [IndexError]
    when it is an empty list. *)
Theorem display_results_unreadable {X} (rt : Runtime X) (w : World X)
    (d : list (str * pyval)) :
  let w' := MkWorld (stdin w) (trace w ++ [EvPrint Msg.top_results]) (ext w) in
  (dict_get (lit "documents") d = None ->
   display_results rt (PDict d) w
   = (Raise (Exn KeyError (lit "'documents'")), w'))
  /\ (dict_get (lit "documents") d = Some PNone ->
      display_results rt (PDict d) w
      = (Raise (Exn TypeError (lit "'NoneType' object is not subscriptable")), w'))
  /\ (dict_get (lit "documents") d = Some (PList []) ->
      display_results rt (PDict d) w
      = (Raise (Exn IndexError (lit "list index out of range")), w')).
Proof.
  intros w'. repeat split; intros Hd;
    unfold display_results, bind, print, lift; cbn; by rewrite Hd.
Qed.

Lemma display_results_unreadable_witness :
  fst (display_results Demo.rt (PDict [(lit "ids", PList [])]) (Demo.world []))
  = Raise (Exn KeyError (lit "'documents'"))
  /\ fst (display_results Demo.rt (PDict [(lit "documents", PNone)]) (Demo.world []))
     = Raise (Exn TypeError (lit "'NoneType' object is not subscriptable"))
  /\ fst (display_results Demo.rt (PDict [(lit "documents", PList [])]) (Demo.world []))
     = Raise (Exn IndexError (lit "list index out of range")).
Proof.
  split; [|split].
  - destruct (display_results_unreadable Demo.rt (Demo.world []) [(lit "ids", PList [])])
      as (H & _ & _).
    by rewrite (H eq_refl).
  - destruct (display_results_unreadable Demo.rt (Demo.world [])
                [(lit "documents", PNone)]) as (_ & H & _).
    by rewrite (H eq_refl).
  - destruct (display_results_unreadable Demo.rt (Demo.world [])
                [(lit "documents", PList [])]) as (_ & _ & H).
    by rewrite (H eq_refl).
Defined.

(** ** The query loop *)

Section QueryLoopFacts.

Context {X : Type} (rt : Runtime X) {E : Type} {iface : EmbeddingInterface X E}.
Implicit Types (self : AppController (E := E)) (w : World X).

(** The pass of the inner loop on a typed line. *)
Lemma query_step_line self w raw rest :
  stdin w = Line raw :: rest ->
  query_step rt self w
  = (if is_q rt (strip raw) then
       (Ok true,
        MkWorld rest (trace w ++ [EvPrompt Msg.ask; EvPrint Msg.done_with_document])
          (ext w))
     else
       (let! query_embedding := embed_query (embedding_service self) (strip raw) in
        let! results := query_documents rt query_embedding in
        do! display_results rt results in
        ret false)
         (MkWorld rest (trace w ++ [EvPrompt Msg.ask]) (ext w))).
Proof.
  intros Hs. unfold query_step, get_query, bind at 1. unfold bind at 1.
  unfold input, ret. cbn. rewrite Hs.
  destruct (is_q rt (strip raw)); [|done].
  unfold bind, print, ret, log. cbn. by rewrite <- app_assoc.
Qed.

Lemma query_step_no_line self w :
  (forall raw rest, stdin w <> Line raw :: rest) ->
  is_Ok (fst (query_step rt self w)) = false.
Proof.
  intros Hs. unfold query_step, get_query, bind at 1. unfold bind at 1.
  unfold input. cbn.
  destruct (stdin w) as [|[raw|] rest]; [done| |done]. by destruct (Hs raw rest).
Qed.

(** A pass that ends the inner loop has read a line that is q and printed
    the closing text. *)
Lemma query_step_stops self w w' :
  query_step rt self w = (Ok true, w') ->
  exists raw rest,
    stdin w = Line raw :: rest
    /\ is_q rt (strip raw) = true
    /\ w' = MkWorld rest
              (trace w ++ [EvPrompt Msg.ask; EvPrint Msg.done_with_document])
              (ext w).
Proof.
  destruct (stdin w) as [|[raw|] rest] eqn:Hs.
  - intros H. pose proof (query_step_no_line self w) as Hn.
    rewrite H in Hn. by rewrite Hs in Hn; discriminate Hn.
  - rewrite (query_step_line self w raw rest Hs).
    destruct (is_q rt (strip raw)) eqn:Hq.
    + intros [= <-]. by exists raw, rest.
    + unfold bind at 1. destruct (embed_query _ _ _) as [[v|e] w1]; [|done].
      unfold bind at 1. destruct (query_documents rt v w1) as [[r|e] w2]; [|done].
      unfold bind at 1. by destruct (display_results rt r w2) as [[[]|e] w3].
  - intros H. pose proof (query_step_no_line self w) as Hn.
    rewrite H in Hn. by rewrite Hs in Hn; discriminate Hn.
Qed.

End QueryLoopFacts.

(** X14.  A line at the query prompt that is not q, the empty line
    included, is trimmed and sent in one [retrieval.query] request; the
    vector of the response is handed to the store with [n_results=3], what
    the store returns is displayed, and the inner loop goes on. *)
Theorem query_step_answers {X} (rt : Runtime X)
    (self : AppController (E := JinaAIEmbeddings)) (w : World X) (raw : str)
    (rest : list stdin_event) (resp : response) (x1 x2 : X) (data v results : pyval) :
  stdin w = Line raw :: rest ->
  is_q rt (strip raw) = false ->
  let req := query_request (embedding_service self) (strip raw) in
  requests_post rt (ext w) req = (Ok resp, x1) ->
  raise_for_status resp = Ok tt ->
  json_body resp = Ok data ->
  first_embedding_of data = Ok v ->
  collection_query rt x1 [v] 3 = (Ok results, x2) ->
  let shown :=
    display_results rt results
      (MkWorld rest (trace w ++ [EvPrompt Msg.ask; EvPost req; EvQuery [v] 3]) x2) in
  query_step rt (iface := JinaAIEmbeddings_interface rt) self w
  = (match fst shown with
     | Ok _ => Ok false
     | Raise e => Raise e
     end, snd shown).
Proof.
  intros Hs Hq req Hpost Hstatus Hjson Hfirst Hquery shown.
  rewrite (query_step_line rt self w raw rest Hs), Hq.
  unfold bind at 1. cbn [embed_query JinaAIEmbeddings_interface].
  unfold Jina_embed_query, post, bind at 1. unfold call at 1. cbn [ext stdin trace].
  fold req. rewrite Hpost. unfold bind at 1, lift at 1. rewrite Hstatus.
  unfold bind at 1, lift at 1. rewrite Hjson. unfold lift at 1. rewrite Hfirst.
  unfold bind at 1, query_documents, query_documents_n, call.
  cbn [ext stdin trace]. rewrite Hquery.
  unfold bind at 1, ret. unfold shown. rewrite <- !app_assoc. cbn [app].
  by destruct (display_results rt results _) as [[[]|e] w3].
Qed.

Lemma query_step_answers_witness :
  query_step Demo.rt (iface := Demo.iface) Demo.app (Demo.world [Line (lit " ")])
  = (Ok false,
     MkWorld []
       [EvPrompt Msg.ask; EvPost (query_request Variant.svc []);
        EvQuery [PList [PInt 0]] 3; EvPrint Msg.top_results]
       Demo.x0).
Proof.
  exact (query_step_answers Demo.rt Demo.app (Demo.world [Line (lit " ")]) (lit " ") []
           _ _ _ _ _ _ eq_refl eq_refl eq_refl eq_refl eq_refl eq_refl eq_refl).
Defined.

(** X15.  The inner loop returns without an exception only by q: the last
    things it did were to prompt and to print "Done with this document.",
    and it has read at least one line.  This holds for every embedding
    service that does not read the input. *)
Theorem query_loop_returns_after_q {X} (rt : Runtime X) {E : Type}
    {iface : EmbeddingInterface X E} (self : AppController (E := E))
    (w w' : World X) :
  reads_no_input (iface := iface) ->
  query_loop rt self w = (Ok tt, w') ->
  (exists tr, trace w' = tr ++ [EvPrompt Msg.ask; EvPrint Msg.done_with_document])
  /\ length (stdin w') < length (stdin w).
Proof.
  intros Hsvc.
  assert (length (stdin w) <= length (stdin w)) as Hle by lia.
  revert Hle. generalize (length (stdin w)) at 2. intros n.
  revert w. induction n as [|n IH]; intros w Hle.
  - rewrite (query_loop_unfold rt self w Hsvc).
    destruct (query_step rt self w) as [[[|]|e] w1] eqn:Hstep; [| |done].
    + apply query_step_stops in Hstep as (raw & rest & Hs & _). rewrite Hs in Hle.
      cbn in Hle. lia.
    + apply (query_step_reads_line rt self w w1 Hsvc) in Hstep as [raw Hs].
      rewrite Hs in Hle. cbn in Hle. lia.
  - rewrite (query_loop_unfold rt self w Hsvc).
    destruct (query_step rt self w) as [[[|]|e] w1] eqn:Hstep; [| |done].
    + apply query_step_stops in Hstep as (raw & rest & Hs & _ & ->).
      intros [= <-]. cbn. split; [by eexists|]. rewrite Hs. cbn. lia.
    + apply (query_step_reads_line rt self w w1 Hsvc) in Hstep as [raw Hs].
      intros Hloop. rewrite Hs in Hle |- *. cbn in Hle.
      destruct (IH w1 ltac:(lia) Hloop) as [Htr Hlen]. split; [done|]. cbn. lia.
Qed.

Lemma query_loop_returns_after_q_witness :
  exists tr,
    trace (snd (query_loop Demo.rt (iface := Demo.iface) Demo.app
                  (Demo.world [Line (lit "why?"); Line (lit " Q ")])))
    = tr ++ [EvPrompt Msg.ask; EvPrint Msg.done_with_document].
Proof.
  destruct (query_loop_returns_after_q Demo.rt (iface := Demo.iface) Demo.app
              (Demo.world [Line (lit "why?"); Line (lit " Q ")]) _
              (Jina_reads_no_input Demo.rt) eq_refl) as [Htr _].
  exact Htr.
Defined.

(** ** Whole passes of the controller *)

Lemma query_loop_fuel_q {X} (rt : Runtime X) {E : Type}
    {iface : EmbeddingInterface X E} (self : AppController (E := E))
    (fuel : nat) (w : World X) (raw : str) (rest : list stdin_event) :
  stdin w = Line raw :: rest ->
  is_q rt (strip raw) = true ->
  query_loop_fuel rt self fuel w
  = (Ok tt,
     MkWorld rest (trace w ++ [EvPrompt Msg.ask; EvPrint Msg.done_with_document])
       (ext w)).
Proof.
  intros Hs Hq.
  destruct fuel; cbn; unfold bind;
    by rewrite (query_step_line rt self w raw rest Hs), Hq.
Qed.

(** X16.  A pass in which everything answers: the chosen file is loaded
    once, the texts of its chunks are sent in one [retrieval.passage]
    request, and the store receives exactly those texts, the chunks'
    metadata, the ids [doc_0], [doc_1], ... and the vectors read from the
    response; then the success line is printed and the query loop starts. *)
Theorem ingestion_stores_what_was_split {X} (rt : Runtime X)
    (self : AppController (E := JinaAIEmbeddings)) (w w1 : World X) (path : str)
    (loader : Loader) (documents docs : list Document) (resp : response)
    (x2 x3 : X) (data : pyval) (vectors : list pyval) :
  choose_file rt (log (EvPrint Msg.new_session) w) = (Ok path, w1) ->
  is_q rt path = false ->
  get_loader rt path = Ok loader ->
  loader_load rt (ext w1) loader = Ok documents ->
  split_documents rt (chunk_size (processor self)) (chunk_overlap (processor self))
    documents = Ok docs ->
  let texts := map page_content docs in
  let metadatas := map metadata docs in
  let ids := map (fun i => lit "doc_" ++ of_nat i) (seq 0 (length docs)) in
  let req := documents_request (embedding_service self) texts in
  requests_post rt (ext w1) req = (Ok resp, x2) ->
  raise_for_status resp = Ok tt ->
  json_body resp = Ok data ->
  embeddings_of data = Ok vectors ->
  collection_add rt x2 texts metadatas ids vectors = (Ok tt, x3) ->
  session_body rt (iface := JinaAIEmbeddings_interface rt) self w
  = (do! query_loop rt (iface := JinaAIEmbeddings_interface rt) self in ret Next)
      (MkWorld (stdin w1)
         (trace w1 ++ [EvLoad loader; EvPost req;
                       EvAdd texts metadatas ids vectors; EvPrint Msg.stored])
         x3).
Proof.
  intros Hc Hq Hg Hload Hsplit texts metadatas ids req Hpost Hstatus Hjson Hemb Hadd.
  rewrite (session_body_selected rt self w path w1 Hc Hq).
  unfold bind at 1, lift at 1. rewrite Hg.
  unfold bind at 1. rewrite process_unfold, Hload, Hsplit.
  fold texts metadatas. change (map doc_id (seq 0 (length docs))) with ids.
  unfold bind at 1. cbn [embed_documents JinaAIEmbeddings_interface].
  unfold Jina_embed_documents, post, bind at 1. unfold call at 1.
  cbn [ext stdin trace log]. fold req. rewrite Hpost.
  unfold bind at 1, lift at 1. rewrite Hstatus.
  unfold bind at 1, lift at 1. rewrite Hjson. unfold lift at 1. rewrite Hemb.
  unfold bind at 1, add_documents, call. cbn [ext stdin trace]. rewrite Hadd.
  unfold bind at 1, print at 1, log. cbn [ext stdin trace].
  by rewrite <- !app_assoc.
Qed.

Lemma ingestion_stores_what_was_split_witness :
  fst (session_body (Variant.rt_of Variant.fine)
         (iface := JinaAIEmbeddings_interface (Variant.rt_of Variant.fine)) Demo.app
         (Demo.world [Line (lit "2"); Line (lit "q")]))
  = Ok Next
  /\ trace (snd (session_body (Variant.rt_of Variant.fine)
                   (iface := JinaAIEmbeddings_interface (Variant.rt_of Variant.fine))
                   Demo.app (Demo.world [Line (lit "2"); Line (lit "q")]))) !! 8
     = Some (EvAdd [lit "first part"; lit "second part"]
               [PDict [(lit "page", PInt 0)]; PDict [(lit "page", PInt 1)]]
               [lit "doc_0"; lit "doc_1"] [PList [PInt 10]; PList [PInt 11]]).
Proof.
  rewrite (ingestion_stores_what_was_split (Variant.rt_of Variant.fine) Demo.app
             (Demo.world [Line (lit "2"); Line (lit "q")]) _
             (lit "/srv/app/notes.txt") _ _ _ _ _ _ _ _
             eq_refl eq_refl eq_refl eq_refl eq_refl eq_refl eq_refl eq_refl
             eq_refl eq_refl).
  split; reflexivity.
Defined.

(** X17.  q at the query prompt ends the document, not the program: after
    a successful ingestion a line that is q makes the pass print "Done
    with this document." and end normally, and the outer loop goes on to
    the next file choice. *)
Theorem q_at_query_prompt_next_file {X} (rt : Runtime X) {E : Type}
    {iface : EmbeddingInterface X E} (self : AppController (E := E))
    (w w1 w2 w3 w4 : World X) (path : str) (loader : Loader)
    (texts : list str) (metadatas : list pyval) (ids : list str)
    (embeddings : list pyval) (raw : str) (rest : list stdin_event) :
  choose_file rt (log (EvPrint Msg.new_session) w) = (Ok path, w1) ->
  is_q rt path = false ->
  get_loader rt path = Ok loader ->
  process rt (processor self) loader w1 = (Ok (texts, metadatas, ids), w2) ->
  embed_documents (embedding_service self) texts w2 = (Ok embeddings, w3) ->
  add_documents rt texts metadatas ids embeddings w3 = (Ok tt, w4) ->
  stdin w4 = Line raw :: rest ->
  is_q rt (strip raw) = true ->
  let w' :=
    MkWorld rest
      (trace w4 ++ [EvPrint Msg.stored; EvPrompt Msg.ask;
                    EvPrint Msg.done_with_document])
      (ext w4) in
  session rt self w = (Ok Next, w')
  /\ forall fuel, run rt self (S fuel) w = run rt self fuel w'.
Proof.
  intros Hc Hq Hg Hp He Ha Hs Hraw w'.
  assert (session rt self w = (Ok Next, w')) as Hsession.
  { unfold session, try_except_Exception.
    rewrite (session_body_selected rt self w path w1 Hc Hq).
    unfold bind at 1, lift at 1. rewrite Hg.
    unfold bind at 1. rewrite Hp. unfold bind at 1. rewrite He.
    unfold bind at 1. rewrite Ha.
    unfold bind at 1, print at 1. unfold bind at 1, query_loop.
    rewrite (query_loop_fuel_q rt self _ _ raw rest) by done.
    unfold ret, w', log. cbn. by rewrite <- !app_assoc. }
  split; [done|]. intros fuel. by apply run_next.
Qed.

Lemma q_at_query_prompt_next_file_witness :
  fst (Demo.pass (Demo.world [Line (lit "2"); Line (lit " Q ")])) = Ok Next
  /\ Demo.stored (ext (snd (Demo.pass (Demo.world [Line (lit "2"); Line (lit " Q ")]))))
     = 1.
Proof.
  destruct (q_at_query_prompt_next_file Demo.rt (iface := Demo.iface) Demo.app
              (Demo.world [Line (lit "2"); Line (lit " Q ")]) _ _ _ _
              (lit "/srv/app/notes.txt") _ _ _ _ _ (lit " Q ") []
              eq_refl eq_refl eq_refl eq_refl eq_refl eq_refl eq_refl eq_refl)
    as [Hs _].
  unfold Demo.pass. rewrite Hs. by split.
Defined.

Lemma path_join_has_slash (a b : str) : a <> [] -> 47%N ∈ path_join a b.
Proof.
  intros Ha. unfold path_join.
  assert (lit "/" = [47%N]) as Hslash by reflexivity.
  destruct (startswith b (lit "/")) eqn:Hb.
  { apply startswith_prefix in Hb as [rest ->]. rewrite Hslash. cbn. left. }
  destruct (eqb a [] || endswith a (lit "/")) eqn:Hend.
  - apply orb_true_iff in Hend as [Hnil|Hend].
    + by apply eqb_true in Hnil.
    + apply endswith_suffix in Hend as [pre ->]. rewrite Hslash.
      rewrite !elem_of_app. left. right. left.
  - rewrite Hslash. rewrite !elem_of_app. right. left. left.
Qed.

Lemma choose_file_Ok_path {X} (rt : Runtime X) (w w' : World X) (path : str) :
  choose_file rt w = (Ok path, w') ->
  exists name, path = path_join (current_dir rt) name.
Proof.
  destruct (os_listdir rt (ext w) (current_dir rt)) as [listing|e] eqn:Hl.
  2:{ by rewrite (choose_file_listdir_raises rt w e Hl). }
  rewrite (choose_file_prompt rt w listing Hl).
  destruct (stdin w) as [|[raw|] rest]; [done| |done].
  unfold selection.
  destruct (dict_get (strip raw) (files_dict rt (ext w) listing))
    as [[|c name]|]; [done| |done].
  intros [= <- _]. by eexists.
Qed.

(** X18.  When the path of the program's directory is not empty, the loop
    is never left by [break]: every path [choose_file] returns contains a
    slash and so is never 'q', whatever is typed.  Lower-casing is only
    asked to keep slashes.  A run ends by an uncaught exception or not at
    all. *)
Theorem run_never_exits {X} (rt : Runtime X) {E : Type}
    {iface : EmbeddingInterface X E} (self : AppController (E := E))
    (fuel : nat) (w : World X) :
  (forall s, 47%N ∈ s -> 47%N ∈ str_lower rt s) ->
  current_dir rt <> [] ->
  fst (run rt self fuel w) <> Exited.
Proof.
  intros Hlower Hdir. revert w.
  induction fuel as [|fuel IH]; intros w; [done|]. cbn.
  destruct (session rt self w) as [[[|]|e] w'] eqn:Hs; [|apply IH|done].
  exfalso. apply session_breaks in Hs as (path & w1 & Hc & Hq & _).
  apply choose_file_Ok_path in Hc as [name ->].
  apply eqb_true in Hq.
  pose proof (strip_keeps _ 47%N
                (Hlower _ (path_join_has_slash (current_dir rt) name Hdir)) eq_refl)
    as Hin.
  rewrite Hq in Hin. apply elem_of_cons in Hin as [Hin|Hin]; [discriminate Hin|].
  by apply elem_of_nil in Hin.
Qed.

Lemma run_never_exits_witness :
  fst (Demo.passes 4 (Demo.world [Line (lit "q"); Line (lit "Q"); CtrlC])) <> Exited.
Proof.
  apply (run_never_exits Demo.rt (iface := Demo.iface) Demo.app 4
           (Demo.world [Line (lit "q"); Line (lit "Q"); CtrlC])).
  - intros s Hs. cbn. rewrite map_fmap.
    by apply (list_elem_of_fmap_2 Demo.lower_char) in Hs.
  - discriminate.
Defined.

(** X19.  Once the input has ended, no pass reads anything: each prints
    the banner, the table, the prompt and the [EOFError] text, and the
    loop goes on.  A run on a finite input that has not failed by then
    never ends. *)
Theorem end_of_input_never_ends {X} (rt : Runtime X) {E : Type}
    {iface : EmbeddingInterface X E} (self : AppController (E := E))
    (listing : list str) (fuel : nat) (w : World X) :
  os_listdir rt (ext w) (current_dir rt) = Ok listing ->
  stdin w = [] ->
  run rt self fuel w
  = (StillRunning,
     MkWorld []
       (trace w ++ concat (replicate fuel (end_of_input_pass rt (ext w) listing)))
       (ext w)).
Proof.
  revert w. induction fuel as [|fuel IH]; intros [inp tr x] Hl Hs;
    cbn in Hl, Hs; subst inp.
  - cbn. by rewrite app_nil_r.
  - pose proof (choose_file_prompt rt
                  (log (EvPrint Msg.new_session) (MkWorld [] tr x)) listing Hl) as Hc.
    cbn [stdin ext log] in Hc.
    apply (session_body_selecting rt self) in Hc.
    rewrite (run_next rt self _ _ fuel (session_caught rt self _ _ _ Hc eq_refl)).
    rewrite IH by done. cbn. unfold end_of_input_pass, file_prompt_trace.
    cbn. by repeat (rewrite <- app_assoc; cbn).
Qed.

Lemma end_of_input_never_ends_witness :
  fst (Demo.passes 6 (Demo.world [])) = StillRunning.
Proof.
  unfold Demo.passes.
  by rewrite (end_of_input_never_ends Demo.rt (iface := Demo.iface) Demo.app
                Demo.listing0 6 (Demo.world []) eq_refl eq_refl).
Defined.

(** ** Start-up *)

(** X20.  With a credential, [main] first creates the collection
    [documents].  If that fails the exception leaves [main], whatever its
    class and before anything is printed: the controller's construction is
    outside the loop's [try].  Otherwise the loop runs with a client that
    carries the credential and a splitter set to 512 and 50. *)
Theorem main_constructs_the_store_first {X} (rt : Runtime X) (fuel : nat)
    (w : World X) (c : char) (key : str) :
  os_getenv rt (ext w) (lit "JINA_API_KEY") = Some (c :: key) ->
  let created x :=
    MkWorld (stdin w) (trace w ++ [EvCreateCollection (lit "documents")]) x in
  (forall e x',
      chroma_get_or_create_collection rt (ext w) (lit "documents") = (Raise e, x') ->
      main rt fuel w = (Uncaught e, created x'))
  /\ (forall x',
        chroma_get_or_create_collection rt (ext w) (lit "documents") = (Ok tt, x') ->
        main rt fuel w
        = run rt (iface := JinaAIEmbeddings_interface rt)
            {| embedding_service := JinaAIEmbeddings_init (c :: key);
               processor := {| chunk_size := 512; chunk_overlap := 50 |} |}
            fuel (created x')).
Proof.
  intros Hkey created. split.
  - intros e x' Hcreate. unfold main, getenv. rewrite Hkey.
    unfold AppController_init, bind, ChromaDBStore_init, call. by rewrite Hcreate.
  - intros x' Hcreate. unfold main, getenv. rewrite Hkey.
    unfold AppController_init, bind, ChromaDBStore_init, call. by rewrite Hcreate.
Qed.

Lemma main_constructs_the_store_first_witness :
  main (Variant.rt_of (Variant.store
          (Some (Exn (OtherException (lit "RuntimeError")) (lit "no sqlite")))
          None (Ok PNone)))
    3 (Demo.world [Line (lit "2")])
  = (Uncaught (Exn (OtherException (lit "RuntimeError")) (lit "no sqlite")),
     MkWorld [Line (lit "2")] [EvCreateCollection (lit "documents")] Demo.x0)
  /\ fst (main Demo.rt 2 (Demo.world [CtrlC])) = Uncaught (Exn KeyboardInterrupt []).
Proof.
  split.
  - destruct (main_constructs_the_store_first
                (Variant.rt_of (Variant.store
                   (Some (Exn (OtherException (lit "RuntimeError")) (lit "no sqlite")))
                   None (Ok PNone)))
                3 (Demo.world [Line (lit "2")]) 115%N (lit "ecret") eq_refl)
      as [Hfail _].
    exact (Hfail _ _ eq_refl).
  - destruct (main_constructs_the_store_first Demo.rt 2 (Demo.world [CtrlC])
                115%N (lit "ecret") eq_refl) as [_ Hrun].
    by rewrite (Hrun _ eq_refl).
Defined.

(** ** What a failed pass leaves alone *)

Lemma choose_file_trace {X} (rt : Runtime X) (w : World X) :
  exists new,
    trace (snd (choose_file rt w)) = trace w ++ new
    /\ Forall (fun ev => is_add ev = false) new.
Proof.
  destruct (os_listdir rt (ext w) (current_dir rt)) as [listing|e] eqn:Hl.
  2:{ rewrite (choose_file_listdir_raises rt w e Hl). eexists. split; [done|].
      by repeat constructor. }
  rewrite (choose_file_prompt rt w listing Hl).
  exists (EvListdir (current_dir rt) :: EvPrint Msg.available
          :: displayed_lines rt (ext w) listing ++ [EvPrompt Msg.enter_id]).
  split; [by destruct (stdin w) as [|[raw|] rest]|].
  repeat (apply Forall_cons; split; [done|]).
  apply Forall_app. split; [|by repeat constructor].
  apply Forall_forall. intros ev Hev.
  by apply displayed_line_not_goodbye in Hev as [_ Hev]; destruct ev.
Qed.

Lemma jina_embed_world {X} (rt : Runtime X) (self : JinaAIEmbeddings)
    (texts : list str) (w : World X) :
  trace (snd (Jina_embed_documents rt self texts w))
  = trace w ++ [EvPost (documents_request self texts)].
Proof.
  unfold Jina_embed_documents, post, bind, call, lift.
  destruct (requests_post rt (ext w) _) as [[resp|e] x]; [|done].
  destruct (raise_for_status resp); [|done].
  destruct (json_body resp); [|done].
  by destruct (embeddings_of _).
Qed.

(** X21.  A pass that fails before the storing step never calls the vector
    store: when the exception comes from the file choice, the loader
    choice, the loading and splitting or the embedding request, nothing
    the pass has done until then is an insertion. *)
Theorem failed_ingestion_stores_nothing {X} (rt : Runtime X)
    (self : AppController (E := JinaAIEmbeddings)) (w w' : World X)
    (st : stage) (e : exn) :
  raised_during rt (iface := JinaAIEmbeddings_interface rt) self w st e w' ->
  st <> Storing ->
  st <> Querying ->
  exists new,
    trace w' = trace w ++ new /\ Forall (fun ev => is_add ev = false) new.
Proof.
  intros Hr Hst Hq.
  destruct Hr as
    [e w1 Hc | path e w1 Hc Hp Hg | path loader e w1 w2 Hc Hp Hg Hproc
    | path loader texts metadatas ids e w1 w2 w3 Hc Hp Hg Hproc He
    | path loader texts metadatas ids embeddings e w1 w2 w3 w4 Hc Hp Hg Hproc He Ha
    | path loader texts metadatas ids embeddings e w1 w2 w3 w4 w5
        Hc Hp Hg Hproc He Ha Hl]; try done;
    destruct (choose_file_trace rt (log (EvPrint Msg.new_session) w))
      as (new & Htr & Hnew); rewrite Hc in Htr; cbn [snd trace log] in Htr.
  - exists (EvPrint Msg.new_session :: new). rewrite Htr, <- app_assoc.
    split; [done | by constructor].
  - exists (EvPrint Msg.new_session :: new). rewrite Htr, <- app_assoc.
    split; [done | by constructor].
  - exists (EvPrint Msg.new_session :: new ++ [EvLoad loader]).
    assert (w2 = log (EvLoad loader) w1) as ->.
    { rewrite process_unfold in Hproc.
      destruct (loader_load rt (ext w1) loader); [|by injection Hproc].
      destruct (split_documents rt _ _ _); [done | by injection Hproc]. }
    cbn. rewrite Htr, <- !app_assoc. split; [done|].
    constructor; [done|]. apply Forall_app. split; [done | by repeat constructor].
  - exists (EvPrint Msg.new_session
            :: new ++ [EvLoad loader;
                       EvPost (documents_request (embedding_service self) texts)]).
    assert (w2 = log (EvLoad loader) w1) as ->.
    { rewrite process_unfold in Hproc.
      destruct (loader_load rt (ext w1) loader); [|done].
      destruct (split_documents rt _ _ _); [by injection Hproc | done]. }
    pose proof (jina_embed_world rt (embedding_service self) texts
                  (log (EvLoad loader) w1)) as Hw.
    cbn [embed_documents JinaAIEmbeddings_interface] in He. rewrite He in Hw.
    cbn in Hw. rewrite Hw, Htr, <- !app_assoc. cbn.
    split; [done|].
    constructor; [done|]. apply Forall_app. split; [done | by repeat constructor].
Qed.

Lemma failed_ingestion_stores_nothing_witness :
  exists new,
    trace (snd (session_body (Variant.rt_of (Variant.answering 500 (Ok PNone)))
                  (iface := JinaAIEmbeddings_interface
                              (Variant.rt_of (Variant.answering 500 (Ok PNone))))
                  Demo.app (Demo.world [Line (lit "2")])))
    = [] ++ new
    /\ Forall (fun ev => is_add ev = false) new.
Proof.
  assert (raised_during (Variant.rt_of (Variant.answering 500 (Ok PNone)))
            (iface := JinaAIEmbeddings_interface
                        (Variant.rt_of (Variant.answering 500 (Ok PNone))))
            Demo.app (Demo.world [Line (lit "2")]) Embedding
            (Exn HTTPError (lit "Client Error"))
            (snd (session_body (Variant.rt_of (Variant.answering 500 (Ok PNone)))
                    (iface := JinaAIEmbeddings_interface
                                (Variant.rt_of (Variant.answering 500 (Ok PNone))))
                    Demo.app (Demo.world [Line (lit "2")])))) as Hr.
  { eapply raised_embedding; reflexivity. }
  exact (failed_ingestion_stores_nothing _ _ _ _ _ _ Hr
           ltac:(discriminate) ltac:(discriminate)).
Defined.

(** * The program when the console and the loader constructors can fail *)

(** ** The earlier definitions are the quiet case *)

Lemma bind_ext {X A B} (m m' : M X A) (k k' : A -> M X B) (w : World X) :
  m w = m' w -> (forall a w1, k a w1 = k' a w1) -> bind m k w = bind m' k' w.
Proof.
  intros Hm Hk. unfold bind. rewrite Hm.
  destruct (m' w) as [[a|e] w1]; [apply Hk | done].
Qed.

Section QuietCase.

Context {X : Type} (rt : Runtime X) {E : Type} {iface : EmbeddingInterface X E}.
Implicit Types (self : AppController (E := E)) (w : World X).

Lemma full_choose_file_quiet w : Full.choose_file quiet rt w = choose_file rt w.
Proof. reflexivity. Qed.

Lemma full_display_results_quiet (results : pyval) w :
  Full.display_results quiet rt results w = display_results rt results w.
Proof. reflexivity. Qed.

Lemma full_get_loader_quiet (path : str) w :
  Full.get_loader quiet rt path w = lift (get_loader rt path) w.
Proof.
  unfold Full.get_loader, get_loader, lift.
  destruct (endswith (str_lower rt path) (lit ".pdf")); [by destruct w|].
  destruct (endswith (str_lower rt path) (lit ".txt")); by destruct w.
Qed.

Lemma full_query_step_quiet self w :
  Full.query_step quiet rt self w = query_step rt self w.
Proof. reflexivity. Qed.

Lemma full_query_loop_fuel_quiet self (fuel : nat) w :
  Full.query_loop_fuel quiet rt self fuel w = query_loop_fuel rt self fuel w.
Proof.
  revert w. induction fuel as [|fuel IH]; intros w; [reflexivity|].
  cbn. unfold bind. rewrite full_query_step_quiet.
  destruct (query_step rt self w) as [[[|]|e] w']; [done | apply IH | done].
Qed.

Lemma full_session_body_quiet self w :
  Full.session_body quiet rt self w = session_body rt self w.
Proof.
  unfold Full.session_body, session_body.
  apply bind_ext; [reflexivity | intros [] w0].
  apply bind_ext; [reflexivity | intros path w1].
  destruct (is_q rt path); [reflexivity|].
  apply bind_ext; [apply full_get_loader_quiet | intros loader w2].
  apply bind_ext; [reflexivity | intros [[texts metadatas] ids] w3].
  apply bind_ext; [reflexivity | intros embeddings w4].
  apply bind_ext; [reflexivity | intros [] w5].
  apply bind_ext; [reflexivity | intros [] w6].
  apply bind_ext; [|reflexivity].
  unfold Full.query_loop, query_loop. apply full_query_loop_fuel_quiet.
Qed.

Lemma full_session_quiet self w : Full.session quiet rt self w = session rt self w.
Proof.
  unfold Full.session, session, try_except_Exception.
  rewrite full_session_body_quiet.
  by destruct (session_body rt self w) as [[c|e] w'].
Qed.

(** With a console that takes every text and constructors that only record
    their arguments, the program is the program of the earlier sections. *)
Lemma full_run_quiet self (fuel : nat) w :
  Full.run quiet rt self fuel w = run rt self fuel w.
Proof.
  revert w. induction fuel as [|fuel IH]; intros w; [reflexivity|].
  cbn. rewrite full_session_quiet.
  destruct (session rt self w) as [[[|]|e] w']; [done | apply IH | done].
Qed.

End QuietCase.

Lemma full_main_quiet {X} (rt : Runtime X) (fuel : nat) (w : World X) :
  Full.main quiet rt fuel w = main rt fuel w.
Proof.
  unfold Full.main, main.
  destruct (getenv rt (lit "JINA_API_KEY") w) as [[[[|c key]|]|e] w1]; try done.
  destruct (AppController_init rt _ w1) as [[app|e] w2]; [|done].
  apply full_run_quiet.
Qed.

(** ** Extensions without regard to case *)

Lemma extension_char_ascii (d : char) : d ∈ extension_chars -> (d <? 128)%N = true.
Proof.
  unfold extension_chars. intros H.
  repeat (apply elem_of_cons in H as [->|H]; [reflexivity|]).
  by apply elem_of_nil in H.
Qed.

Lemma ascii_lower_other (c : char) : (c <? 128)%N = false -> ascii_lower c = c.
Proof.
  intros Hc. unfold ascii_lower. apply N.ltb_ge in Hc.
  destruct (65 <=? c)%N; [|done]. cbn.
  destruct (c <=? 90)%N eqn:H90; [|done]. apply N.leb_le in H90. lia.
Qed.

(** A character whose ASCII lower case is a character of the extensions is
    ASCII itself. *)
Lemma ascii_lower_extension_char (c : char) :
  ascii_lower c ∈ extension_chars -> (c <? 128)%N = true.
Proof.
  intros H. destruct (c <? 128)%N eqn:Hc; [done|].
  rewrite (ascii_lower_other c Hc) in H.
  apply extension_char_ascii in H. congruence.
Qed.

Lemma lowered_suffix (suffix : str) (pieces : list str) :
  Forall2 lowers_to suffix pieces ->
  Forall (fun d => d ∈ extension_chars) (map ascii_lower suffix) ->
  concat pieces = map ascii_lower suffix.
Proof.
  induction 1 as [|c p suffix pieces Hc _ IH]; cbn; [done|].
  intros Hext. apply Forall_cons in Hext as [Hd Hext].
  unfold lowers_to in Hc. rewrite (ascii_lower_extension_char c Hd) in Hc.
  subst p. cbn. by rewrite IH.
Qed.

Lemma lowered_ends_with (ext s : str) (pieces : list str) (pre : str) :
  Forall2 lowers_to s pieces ->
  Forall (fun d => d ∈ extension_chars) ext ->
  concat pieces = pre ++ ext ->
  exists stem suffix, s = stem ++ suffix /\ map ascii_lower suffix = ext.
Proof.
  revert s pieces pre.
  induction ext as [|d ext IH] using rev_ind; intros s pieces pre Hs Hext Hcat.
  { exists s, []. by rewrite app_nil_r. }
  apply Forall_app in Hext as [Hext Hd]. apply Forall_cons in Hd as [Hd _].
  destruct s as [|c s _] using rev_ind.
  { apply Forall2_nil_inv_l in Hs. subst pieces. cbn in Hcat.
    symmetry in Hcat. apply app_eq_nil in Hcat as [_ Hcat].
    by apply app_eq_nil in Hcat as [_ Hcat]. }
  apply Forall2_app_inv_l in Hs as (ps & pc & Hps & Hpc & ->).
  apply Forall2_cons_inv_l in Hpc as (p & pc' & Hp & Hnil & ->).
  apply Forall2_nil_inv_l in Hnil. subst pc'.
  rewrite concat_app in Hcat. cbn in Hcat. rewrite app_nil_r in Hcat.
  unfold lowers_to in Hp. destruct (c <? 128)%N eqn:Hc.
  - subst p. rewrite (app_assoc pre) in Hcat.
    apply app_inj_tail in Hcat as [Hcat Hcd].
    destruct (IH s ps pre Hps Hext Hcat) as (stem & suffix & -> & Hsuf).
    exists stem, (suffix ++ [c]). rewrite <- app_assoc. split; [done|].
    by rewrite map_app, Hsuf; cbn; rewrite Hcd.
  - destruct Hp as [Hne Hp]. exfalso.
    destruct (exists_last Hne) as (q & z & ->).
    rewrite (app_assoc pre), (app_assoc (concat ps)) in Hcat.
    apply app_inj_tail in Hcat as [_ ->].
    apply Forall_app in Hp as [_ Hp]. apply Forall_cons in Hp as [Hp _]. done.
Qed.

(** For a lower-casing that works like Python's, [s.lower().endswith(ext)]
    holds exactly when [s] ends in [ext] in some mixture of ASCII upper
    and lower case. *)
Lemma lower_endswith_ci (lower : str -> str) (s ext : str) :
  python_lower lower ->
  Forall (fun d => d ∈ extension_chars) ext ->
  endswith (lower s) ext = true <-> has_extension_ci ascii_lower s ext.
Proof.
  intros Hlower Hext. destruct (Hlower s) as (pieces & Hl & Hs).
  rewrite endswith_suffix, Hl. split.
  - intros [pre Hcat]. by apply (lowered_ends_with ext s pieces pre).
  - intros (stem & suffix & -> & Hsuf).
    apply Forall2_app_inv_l in Hs as (ps & pc & Hps & Hpc & ->).
    exists (concat ps). rewrite concat_app. f_equal.
    rewrite <- Hsuf. apply lowered_suffix; [done | by rewrite Hsuf].
Qed.

Lemma demo_lower_is_python : python_lower (str_lower Demo.rt).
Proof.
  intros s. exists (map (fun c => [Demo.lower_char c]) s). split.
  - cbn. induction s as [|c s IH]; cbn; [done | by rewrite <- IH].
  - induction s as [|c s IH]; cbn; constructor; [|done].
    unfold lowers_to. destruct (c <? 128)%N eqn:Hc; [done|].
    change (Demo.lower_char c) with (ascii_lower c).
    rewrite (ascii_lower_other c Hc). split; [done|].
    constructor; [|done]. intros Hin. apply extension_char_ascii in Hin. congruence.
Qed.

(** ** The loader selector *)

(** C7.  [get_loader] decides by the extension of the path, compared
    without regard to case: a path ending in [.pdf] in any mixture of
    upper and lower case is handed to the constructor [PyPDFLoader], one
    ending in [.txt] to [TextLoader] with encoding utf8, and the loader is
    returned when the constructor returns.  For every other path it raises
    [ValueError] ("Unsupported file type") and leaves the world as it was:
    no constructor is called and nothing is read.  A pass of the
    controller that has selected such a path ends with that error in the
    world the selection left. *)
Theorem get_loader_by_extension_ci {X} (hz : Hazards X) (rt : Runtime X)
    (path : str) (w : World X) :
  python_lower (str_lower rt) ->
  (has_extension_ci ascii_lower path (lit ".pdf") ->
   Full.get_loader hz rt path w = Full.construct hz (PyPDFLoader path) w)
  /\ (has_extension_ci ascii_lower path (lit ".txt") ->
      Full.get_loader hz rt path w
      = Full.construct hz (TextLoader path (lit "utf8")) w)
  /\ (~ has_extension_ci ascii_lower path (lit ".pdf") ->
      ~ has_extension_ci ascii_lower path (lit ".txt") ->
      Full.get_loader hz rt path w = (Raise (Exn ValueError Msg.unsupported), w)
      /\ forall (E : Type) (iface : EmbeddingInterface X E)
                (self : AppController (E := E)) (w0 w1 : World X),
           Full.print hz Msg.new_session w0 = (Ok tt, w1) ->
           Full.choose_file hz rt w1 = (Ok path, w) ->
           is_q rt path = false ->
           Full.session_body hz rt self w0
           = (Raise (Exn ValueError Msg.unsupported), w)).
Proof.
  intros Hlower.
  assert (Forall (fun d => d ∈ extension_chars) (lit ".pdf")) as Hpdf
    by (repeat constructor; by_computation).
  assert (Forall (fun d => d ∈ extension_chars) (lit ".txt")) as Htxt
    by (repeat constructor; by_computation).
  pose proof (lower_endswith_ci _ path _ Hlower Hpdf) as Hp.
  pose proof (lower_endswith_ci _ path _ Hlower Htxt) as Ht.
  unfold Full.get_loader. split; [|split].
  - intros H. apply Hp in H. by rewrite H.
  - intros H. apply Ht in H.
    rewrite (endswith_same_length _ (lit ".txt") (lit ".pdf")); try done.
    by rewrite H.
  - intros Hnp Hnt.
    destruct (endswith (str_lower rt path) (lit ".pdf")) eqn:E1;
      [by destruct Hnp; apply Hp|].
    destruct (endswith (str_lower rt path) (lit ".txt")) eqn:E2;
      [by destruct Hnt; apply Ht|].
    split; [done|]. intros E iface self w0 w1 Hb Hc Hq.
    unfold Full.session_body. unfold bind at 1. rewrite Hb.
    unfold bind at 1. rewrite Hc, Hq.
    unfold bind at 1, Full.get_loader. by rewrite E1, E2.
Qed.

Lemma get_loader_by_extension_ci_witness :
  Full.get_loader Demo2.checking_pdf Demo.rt (lit "/srv/app/paper.PDF") (Demo.world [])
    = (Ok (PyPDFLoader (lit "/srv/app/paper.PDF")), Demo.world [])
  /\ fst (Full.get_loader Demo2.checking_pdf Demo.rt (lit "/srv/app/ghost.Pdf")
            (Demo.world []))
     = Raise (Exn ValueError (lit "File path is not a valid file or url"))
  /\ Full.get_loader Demo2.checking_pdf Demo.rt (lit "/srv/app/notes.TXT") (Demo.world [])
     = (Ok (TextLoader (lit "/srv/app/notes.TXT") (lit "utf8")), Demo.world [])
  /\ Full.get_loader Demo2.checking_pdf Demo.rt (lit "/srv/app/report.docx")
       (Demo.world [])
     = (Raise (Exn ValueError Msg.unsupported), Demo.world []).
Proof.
  split; [|split; [|split]].
  - destruct (get_loader_by_extension_ci Demo2.checking_pdf Demo.rt
                (lit "/srv/app/paper.PDF") (Demo.world []) demo_lower_is_python)
      as (Hpdf & _ & _).
    rewrite Hpdf; [reflexivity|].
    by exists (lit "/srv/app/paper"), (lit ".PDF").
  - destruct (get_loader_by_extension_ci Demo2.checking_pdf Demo.rt
                (lit "/srv/app/ghost.Pdf") (Demo.world []) demo_lower_is_python)
      as (Hpdf & _ & _).
    rewrite Hpdf; [reflexivity|].
    by exists (lit "/srv/app/ghost"), (lit ".Pdf").
  - destruct (get_loader_by_extension_ci Demo2.checking_pdf Demo.rt
                (lit "/srv/app/notes.TXT") (Demo.world []) demo_lower_is_python)
      as (_ & Htxt & _).
    rewrite Htxt; [reflexivity|].
    by exists (lit "/srv/app/notes"), (lit ".TXT").
  - destruct (get_loader_by_extension_ci Demo2.checking_pdf Demo.rt
                (lit "/srv/app/report.docx") (Demo.world []) demo_lower_is_python)
      as (_ & _ & Hother).
    apply Hother.
    + intros H. apply (lower_endswith_ci _ _ _ demo_lower_is_python) in H;
        [discriminate H | repeat constructor; by_computation].
    + intros H. apply (lower_endswith_ci _ _ _ demo_lower_is_python) in H;
        [discriminate H | repeat constructor; by_computation].
Defined.

(** ** The loop boundary *)

Section LoopBoundary.

Context {X : Type} (hz : Hazards X) (rt : Runtime X) {E : Type}
        {iface : EmbeddingInterface X E}.
Implicit Types (self : AppController (E := E)) (w : World X).

(** The banner is printed inside the [try]: a console that refuses it makes
    the body raise before anything else happens. *)
Lemma full_banner_refused self w (e : exn) :
  stdout_error hz (ext w) Msg.new_session = Some e ->
  Full.session_body hz rt self w = (Raise e, w).
Proof.
  intros H. unfold Full.session_body, bind, Full.print. by rewrite H.
Qed.

Lemma full_run_next self w w' (fuel : nat) :
  Full.session hz rt self w = (Ok Next, w') ->
  Full.run hz rt self (S fuel) w = Full.run hz rt self fuel w'.
Proof. intros H. cbn. by rewrite H. Qed.

Lemma full_run_uncaught self w w' (e : exn) (fuel : nat) :
  Full.session hz rt self w = (Raise e, w') ->
  Full.run hz rt self (S fuel) w = (Uncaught e, w').
Proof. intros H. cbn. by rewrite H. Qed.

End LoopBoundary.

(** C6, as the code has it.  Whatever exception the [try] body of one pass
    ends with, raised by any of its steps (the banner, the file choice,
    the loader's construction, loading and splitting, embedding, storing,
    the success line, the query loop): if it is an [Exception] it is
    caught and the handler prints it after "Error: "; when that print
    succeeds the loop goes on with the next pass, and when that print
    itself raises, its exception is not caught and ends [run].  An
    exception that is no [Exception] (Ctrl-C at a prompt, a [SystemExit])
    is not caught and ends [run].  A missing or empty [JINA_API_KEY] makes
    [main] raise [ValueError] with the world untouched: before the
    controller is constructed and before anything is printed. *)
Theorem exceptions_at_the_loop_boundary {X} (hz : Hazards X) (rt : Runtime X) :
  (forall (E : Type) (iface : EmbeddingInterface X E)
          (self : AppController (E := E)) (w w' : World X) (e : exn),
      Full.session_body hz rt self w = (Raise e, w') ->
      let message := Msg.error_prefix ++ exn_str e in
      (is_Exception (exn_cls e) = true ->
       (stdout_error hz (ext w') message = None ->
        let w'' := log (EvPrint message) w' in
        Full.session hz rt self w = (Ok Next, w'')
        /\ forall fuel, Full.run hz rt self (S fuel) w = Full.run hz rt self fuel w'')
       /\ (forall e',
             stdout_error hz (ext w') message = Some e' ->
             Full.session hz rt self w = (Raise e', w')
             /\ forall fuel, Full.run hz rt self (S fuel) w = (Uncaught e', w')))
      /\ (is_Exception (exn_cls e) = false ->
          Full.session hz rt self w = (Raise e, w')
          /\ forall fuel, Full.run hz rt self (S fuel) w = (Uncaught e, w')))
  /\ (forall (fuel : nat) (w : World X),
        os_getenv rt (ext w) (lit "JINA_API_KEY") = None
        \/ os_getenv rt (ext w) (lit "JINA_API_KEY") = Some [] ->
        Full.main hz rt fuel w = (Uncaught (Exn ValueError Msg.no_api_key), w)).
Proof.
  split.
  - intros E iface self w w' e Hb message. split; [intros He; split|intros He].
    + intros Hprint w''.
      assert (Full.session hz rt self w = (Ok Next, w'')) as Hs.
      { unfold Full.session, try_except_Exception. rewrite Hb, He.
        unfold Full.report, bind, Full.print. fold message. by rewrite Hprint. }
      split; [done|]. intros fuel. by apply full_run_next.
    + intros e' Hprint.
      assert (Full.session hz rt self w = (Raise e', w')) as Hs.
      { unfold Full.session, try_except_Exception. rewrite Hb, He.
        unfold Full.report, bind, Full.print. fold message. by rewrite Hprint. }
      split; [done|]. intros fuel. by apply full_run_uncaught.
    + assert (Full.session hz rt self w = (Raise e, w')) as Hs.
      { unfold Full.session, try_except_Exception. by rewrite Hb, He. }
      split; [done|]. intros fuel. by apply full_run_uncaught.
  - intros fuel w [H|H]; unfold Full.main, getenv; by rewrite H.
Qed.

(** C6, as the claim has it, fails in two ways.  Ctrl-C at the file prompt
    raises [KeyboardInterrupt] inside the pass; it is not caught and ends
    [run].  And on a console that takes ASCII only, the banner's print
    raises [UnicodeEncodeError] inside the pass; it is caught, but the
    handler's own print of the "Error: " line raises again, outside any
    [try], and that ends [run]: nothing is printed and the loop does not
    go on. *)
Lemma not_every_exception_is_printed :
  (fst (Full.session_body quiet Demo.rt (iface := Demo.iface) Demo.app
          (Demo.world [CtrlC]))
   = Raise (Exn KeyboardInterrupt [])
   /\ fst (Full.run quiet Demo.rt (iface := Demo.iface) Demo.app 1 (Demo.world [CtrlC]))
      = Uncaught (Exn KeyboardInterrupt []))
  /\ (Full.session_body Demo2.ascii_console Demo.rt (iface := Demo.iface) Demo.app
        (Demo.world [Line (lit "2")])
      = (Raise Demo2.unicode_encode_error, Demo.world [Line (lit "2")])
      /\ is_Exception (exn_cls Demo2.unicode_encode_error) = true
      /\ Full.run Demo2.ascii_console Demo.rt (iface := Demo.iface) Demo.app 3
           (Demo.world [Line (lit "2")])
         = (Uncaught Demo2.unicode_encode_error, Demo.world [Line (lit "2")])).
Proof. repeat split; reflexivity. Qed.

Lemma exceptions_at_the_loop_boundary_witness :
  fst (Full.session quiet Demo.rt (iface := Demo.iface) Demo.app
         (Demo.world [Line (lit "7")])) = Ok Next
  /\ fst (Full.run Demo2.ascii_console Demo.rt (iface := Demo.iface) Demo.app 1
            (Demo.world [Line (lit "7")]))
     = Uncaught Demo2.unicode_encode_error
  /\ fst (Full.run quiet Demo.rt (iface := Demo.iface) Demo.app 1 (Demo.world [CtrlC]))
     = Uncaught (Exn KeyboardInterrupt [])
  /\ Full.main quiet Demo.rt 1 (MkWorld [Line (lit "2")] [] Demo.x_no_key)
     = (Uncaught (Exn ValueError Msg.no_api_key),
        MkWorld [Line (lit "2")] [] Demo.x_no_key).
Proof.
  split; [|split; [|split]].
  - destruct (exceptions_at_the_loop_boundary quiet Demo.rt) as [Hloop _].
    destruct (Hloop _ Demo.iface Demo.app (Demo.world [Line (lit "7")]) _
                (Exn FileNotFoundError Msg.file_not_found) eq_refl) as [Hcaught _].
    destruct (Hcaught eq_refl) as [Hprinted _].
    destruct (Hprinted eq_refl) as [Hs _]. by rewrite Hs.
  - destruct (exceptions_at_the_loop_boundary Demo2.ascii_console Demo.rt)
      as [Hloop _].
    destruct (Hloop _ Demo.iface Demo.app (Demo.world [Line (lit "7")]) _
                Demo2.unicode_encode_error eq_refl) as [Hcaught _].
    destruct (Hcaught eq_refl) as [_ Hrefused].
    destruct (Hrefused Demo2.unicode_encode_error eq_refl) as [_ Hr].
    by rewrite Hr.
  - destruct (exceptions_at_the_loop_boundary quiet Demo.rt) as [Hloop _].
    destruct (Hloop _ Demo.iface Demo.app (Demo.world [CtrlC]) _
                (Exn KeyboardInterrupt []) eq_refl) as [_ Hpass].
    destruct (Hpass eq_refl) as [_ Hr]. by rewrite Hr.
  - destruct (exceptions_at_the_loop_boundary quiet Demo.rt) as [_ Hmain].
    apply Hmain. left. reflexivity.
Defined.
